(** * Dolev-Yao verification of the request/response protocol
      (examples/dolevyao_rpc.c)

    The C file declares a thin layer of wrapper functions over [struct item]
    objects by their contracts only, and implements three functions on top
    of them: [client], [server] and [attacker].  This development embeds

    - the inductive datatype [item] and the fixpoint [mypub] as they are
      written in the annotations;
    - the wrappers as an executable reading of their contracts: the
      [requires] clause consumes heap chunks, the [ensures] clause produces
      them; a postcondition [false] means that the call does not return;
    - the bodies of [client], [server] and [attacker] statement by
      statement over a small state-and-failure monad. *)

From stdpp Require Import gmap list.

Local Open Scope Z_scope.

(** ** Items *)

(** [inductive item] of the source; the fields are VeriFast's mathematical
    [int].  The C [int]s that cross the wrappers ([create_data_item],
    [item_get_data], [choose]) are compared and stored, never computed
    with. *)
Inductive item : Type :=
  | key_item (creator : Z) (id : Z)
  | data_item (id : Z)
  | hmacsha1_item (keyCreator : Z) (id : Z) (payload : item)
  | pair_item (first : item) (second : item).

(** The [==] of the annotation language on item values, written out as the
    structural recursion it denotes. *)
Fixpoint item_eqb (i1 i2 : item) : bool :=
  match i1, i2 with
  | key_item c1 n1, key_item c2 n2 => (c1 =? c2) && (n1 =? n2)
  | data_item d1, data_item d2 => d1 =? d2
  | hmacsha1_item c1 n1 p1, hmacsha1_item c2 n2 p2 =>
      (c1 =? c2) && (n1 =? n2) && item_eqb p1 p2
  | pair_item f1 s1, pair_item f2 s2 => item_eqb f1 f2 && item_eqb s1 s2
  | _, _ => false
  end.

(** ** Machine state *)

(** A [struct item *]. *)
Abbreviation ptr := Z (only parsing).

(** The heap chunks the contracts talk about; the sources of
    nondeterminism ([net_receive], [choose] and the application behind
    [compute_response]) as tapes; and a ghost log of what was sent. *)
Record state : Type := mkState {
  items : gmap Z item;            (* the chunks item(p, i); key(p, c, n) is item(p, key_item(c, n)) *)
  world : item -> bool;           (* the chunk world(pub) *)
  principal_chunks : list (Z * Z);(* the chunks principal(id, keyCount), newest first *)
  principals : option Z;          (* the chunk principals(count), when owned *)
  wire : list item;               (* what the world offers to net_receive, in order *)
  choices : list Z;               (* what choose() returns, in order *)
  answers : list item;            (* what the server application answers, in order *)
  sent : list item                (* ghost: the items passed to net_send, oldest first *)
}.

Definition set_items (f : gmap Z item -> gmap Z item) (s : state) : state :=
  mkState (f (items s)) (world s) (principal_chunks s) (principals s)
          (wire s) (choices s) (answers s) (sent s).

Definition set_principal_chunks (l : list (Z * Z)) (s : state) : state :=
  mkState (items s) (world s) l (principals s)
          (wire s) (choices s) (answers s) (sent s).

Definition set_principals (n : option Z) (s : state) : state :=
  mkState (items s) (world s) (principal_chunks s) n
          (wire s) (choices s) (answers s) (sent s).

Definition set_wire (l : list item) (s : state) : state :=
  mkState (items s) (world s) (principal_chunks s) (principals s)
          l (choices s) (answers s) (sent s).

Definition set_choices (l : list Z) (s : state) : state :=
  mkState (items s) (world s) (principal_chunks s) (principals s)
          (wire s) l (answers s) (sent s).

Definition set_answers (l : list item) (s : state) : state :=
  mkState (items s) (world s) (principal_chunks s) (principals s)
          (wire s) (choices s) l (sent s).

Definition log_sent (d : item) (s : state) : state :=
  mkState (items s) (world s) (principal_chunks s) (principals s)
          (wire s) (choices s) (answers s) (sent s ++ [d]).

(** ** Outcomes *)

(** Why a run stops without returning. *)
Inductive stop : Type :=
  | TagMismatch       (* a wrapper whose postcondition is [false] for this tag: it aborts *)
  | HashMismatch      (* hmacsha1_verify does not return *)
  | AbortCall         (* an explicit abort() in a body *)
  | ContractViolation (* a requires clause does not hold: not a run the contracts allow *)
  | Assumed           (* an ensures clause of the environment would be false: not a run the contracts describe *)
  | Exhausted.        (* the tape of the model has no further entry *)

Inductive outcome (A : Type) : Type :=
  | Ret (a : A) (s : state)
  | Stop (why : stop) (s : state).
Arguments Ret {A} a s.
Arguments Stop {A} why s.

Definition M (A : Type) : Type := state -> outcome A.

Definition ret {A} (a : A) : M A := fun s => Ret a s.

Definition bind {A B} (m : M A) (k : A -> M B) : M B :=
  fun s => match m s with
           | Ret a s' => k a s'
           | Stop why s' => Stop why s'
           end.

Definition fail {A} (why : stop) : M A := fun s => Stop why s.

#[global] Instance M_ret : MRet M := @ret.
#[global] Instance M_bind : MBind M := fun A B k m => bind m k.

(** ** Chunk handling *)

(** Consume the chunk item(p, ?i). *)
Definition consume_item (p : ptr) : M item :=
  fun s => match items s !! p with
           | Some i => Ret i (set_items (delete p) s)
           | None => Stop ContractViolation s
           end.

(** Produce the chunk item(p, i). *)
Definition produce_item (p : ptr) (i : item) : M unit :=
  fun s => Ret tt (set_items (insert p i) s).

(** The address of a newly allocated [struct item]: any address that holds
    no item; the model takes the one after the largest in use. *)
Definition fresh_ptr (m : gmap Z item) : ptr :=
  map_fold (fun p _ acc => Z.max (p + 1) acc) 1 m.

Definition alloc_item (i : item) : M ptr :=
  fun s => let p := fresh_ptr (items s) in Ret p (set_items (insert p i) s).

(** pub(d), for the [pub] of the chunk world(?pub). *)
Definition world_allows (d : item) : M bool := fun s => Ret (world s d) s.

Definition log_send (d : item) : M unit := fun s => Ret tt (log_sent d s).

(** The next answer of the server application. *)
Definition next_answer : M item :=
  fun s => match answers s with
           | resp :: rest => Ret resp (set_answers rest s)
           | [] => Stop Exhausted s
           end.

(** ** The wrapper functions, read off their contracts *)

(** [create_key]: requires principal(?principal, ?keyCount); ensures
    principal(principal, keyCount + 1) and key(result, principal, keyCount).
    The pattern matches the chunk found first. *)
Definition create_key : M ptr :=
  fun s => match principal_chunks s with
           | (principal, keyCount) :: rest =>
               alloc_item (key_item principal keyCount)
                 (set_principal_chunks ((principal, keyCount + 1) :: rest) s)
           | [] => Stop ContractViolation s
           end.

(** The lemma [create_principal]: requires principals(?count); ensures
    principals(count + 1) and principal(count, 0). *)
Definition create_principal : M unit :=
  fun s => match principals s with
           | Some count =>
               Ret tt (set_principal_chunks ((count, 0) :: principal_chunks s)
                         (set_principals (Some (count + 1)) s))
           | None => Stop ContractViolation s
           end.

(** [check_is_key] aborts if the item is not a key. *)
Definition check_is_key (item : ptr) : M unit :=
  i ← consume_item item;
  match i with
  | key_item creator id => produce_item item i
  | data_item _ | hmacsha1_item _ _ _ | pair_item _ _ => fail TagMismatch
  end.

Definition create_data_item (data : Z) : M ptr := alloc_item (data_item data).

(** [item_get_data] aborts if the item is not a data item. *)
Definition item_get_data (item : ptr) : M Z :=
  i ← consume_item item;
  match i with
  | data_item d => produce_item item i;; mret d
  | key_item _ _ | hmacsha1_item _ _ _ | pair_item _ _ => fail TagMismatch
  end.

(** Consume the chunk key(p, ?creator, ?id), that is item(p, key_item(creator, id)). *)
Definition consume_key (p : ptr) : M (Z * Z) :=
  i ← consume_item p;
  match i with
  | key_item creator id => mret (creator, id)
  | data_item _ | hmacsha1_item _ _ _ | pair_item _ _ => fail ContractViolation
  end.

Definition produce_key (p : ptr) (creator id : Z) : M unit :=
  produce_item p (key_item creator id).

(** The ghost statement [open key(p, ?creator, ?id)]: the chunk becomes
    item(p, key_item(creator, id)). *)
Definition open_key (p : ptr) : M (Z * Z) :=
  '(creator, id) ← consume_key p;
  produce_item p (key_item creator id);;
  mret (creator, id).

Definition hmacsha1 (key payload : ptr) : M ptr :=
  '(creator, id) ← consume_key key;
  p ← consume_item payload;
  produce_key key creator id;;
  produce_item payload p;;
  alloc_item (hmacsha1_item creator id p).

Definition create_pair (first second : ptr) : M ptr :=
  f ← consume_item first;
  s ← consume_item second;
  produce_item first f;;
  produce_item second s;;
  alloc_item (pair_item f s).

(** [net_send]: requires world(?pub), item(datagram, ?d) and pub(d) == true;
    gives both chunks back.  The log entry is ghost. *)
Definition net_send (datagram : ptr) : M unit :=
  d ← consume_item datagram;
  ok ← world_allows d;
  if (ok : bool) then log_send d;; produce_item datagram d
  else fail ContractViolation.

(** [net_receive]: requires world(?pub); ensures world(pub), item(result, ?d)
    and pub(d) == true.  The item is the next offer of the world; an offer
    outside pub is excluded by the contract. *)
Definition net_receive : M ptr :=
  fun s => match wire s with
           | d :: rest =>
               if world s d then alloc_item d (set_wire rest s)
               else Stop Assumed s
           | [] => Stop Exhausted s
           end.

Definition pair_get_first (pair : ptr) : M ptr :=
  p ← consume_item pair;
  produce_item pair p;;
  match p with
  | pair_item f s => alloc_item f
  | key_item _ _ | data_item _ | hmacsha1_item _ _ _ => fail TagMismatch
  end.

Definition pair_get_second (pair : ptr) : M ptr :=
  p ← consume_item pair;
  produce_item pair p;;
  match p with
  | pair_item f s => alloc_item s
  | key_item _ _ | data_item _ | hmacsha1_item _ _ _ => fail TagMismatch
  end.

(** [hmacsha1_verify] returns only with h == hmacsha1_item(creator, id, p). *)
Definition hmacsha1_verify (hash key payload : ptr) : M unit :=
  h ← consume_item hash;
  '(creator, id) ← consume_key key;
  p ← consume_item payload;
  produce_item hash h;;
  produce_key key creator id;;
  produce_item payload p;;
  if item_eqb h (hmacsha1_item creator id p) then mret tt else fail HashMismatch.

(** [item_equals]: result == (i1 == i2). *)
Definition item_equals (item1 item2 : ptr) : M bool :=
  i1 ← consume_item item1;
  i2 ← consume_item item2;
  produce_item item1 i1;;
  produce_item item2 i2;;
  mret (item_eqb i1 i2).

Definition item_free (item : ptr) : M unit :=
  consume_item item;; mret tt.

(** [choose]: requires true, ensures true. *)
Definition choose : M Z :=
  fun s => match choices s with
           | c :: rest => Ret c (set_choices rest s)
           | [] => Stop Exhausted s
           end.

(** [abort()] of stdlib.h. *)
Definition abort {A} : M A := fail AbortCall.

(** The ghost statement [//@ assume(b)]: an annotation, erased from the
    compiled program.  It has no effect on the run; the verifier takes [b]
    for granted from there on. *)
Definition assume (b : bool) : M unit := mret tt.

(** The value that a [struct item] represents. *)
Definition item_value (p : ptr) : M item :=
  i ← consume_item p;
  produce_item p i;;
  mret i.

(** [n] calls of [create_key] in a row, and the values of the keys they
    return, in order. *)
Fixpoint create_keys (n : nat) : M (list item) :=
  match n with
  | O => mret []
  | S n' =>
      k ← create_key;
      v ← item_value k;
      vs ← create_keys n';
      mret (v :: vs)
  end.

(** [n] uses of the lemma [create_principal] in a row. *)
Fixpoint create_principals (n : nat) : M unit :=
  match n with
  | O => mret tt
  | S n' => create_principal;; create_principals n'
  end.

(** ** A weakest-precondition reading of the contracts

    [wp E m Q s]: run from [s], [m] either returns a result and a state that
    satisfy [Q], or stops for a reason and in a state that satisfy [E]. *)

Definition wp {A} (E : stop -> state -> Prop) (m : M A)
    (Q : A -> state -> Prop) (s : state) : Prop :=
  match m s with
  | Ret a s' => Q a s'
  | Stop why s' => E why s'
  end.

(** What VeriFast checks: no contract is violated.  Runs that abort, and
    runs in which the environment breaks its own [ensures] clause, are
    accepted. *)
Definition safe (why : stop) (s : state) : Prop := why <> ContractViolation.

(** The state in which a run ends. *)
Definition final_state {A} (o : outcome A) : state :=
  match o with Ret _ s => s | Stop _ s => s end.

(** The one message [server] accepts as a request. *)
Definition request_message (creator id : Z) (req : item) : item :=
  pair_item
    (hmacsha1_item creator id (pair_item (data_item 0) req))
    (pair_item (data_item 0) req).

(** The one message [client] accepts as the response to [req]. *)
Definition response_message (creator id : Z) (req resp : item) : item :=
  pair_item
    (hmacsha1_item creator id (pair_item (data_item 1) (pair_item req resp)))
    (pair_item (data_item 1) (pair_item req resp)).

(** What pair decomposition, action 4 of the attacker, extracts from an
    item: the item itself and the components of its components.  A keyed
    hash is not taken apart. *)
Fixpoint components (i : item) : list item :=
  i :: match i with
       | pair_item f s => components f ++ components s
       | key_item _ _ | data_item _ | hmacsha1_item _ _ _ => []
       end.

Section Protocol.

(** The unimplemented fixpoints of the source: the environment facts and the
    event predicates. *)
Context (bad : Z -> bool).
Context (request : Z -> Z -> item -> bool).
Context (response : Z -> Z -> item -> item -> bool).
Context (shared_with : Z -> Z -> Z).

(** [fixpoint bool mypub(item i)] *)
Fixpoint mypub (i : item) : bool :=
  match i with
  | key_item o k => bad o || bad (shared_with o k)
  | data_item d => true
  | hmacsha1_item creator id m =>
      bad creator || bad (shared_with creator id)
      ||
      match m with
      | pair_item f s =>
          match f with
          | data_item tag =>
              if tag =? 0 then
                request creator (shared_with creator id) s
              else if tag =? 1 then
                match s with
                | pair_item req resp =>
                    response creator (shared_with creator id) req resp
                | _ => false
                end
              else false
          | _ => false
          end
      | _ => false
      end
  | pair_item i1 i2 => mypub i1 && mypub i2
  end.

(** [client]; the parameter [server] occurs in the contract only. *)
Definition client (server : Z) (key request : ptr) : M ptr :=
  tag ← create_data_item 0;
  payload ← create_pair tag request;
  item_free tag;;
  hash ← hmacsha1 key payload;
  m ← create_pair hash payload;
  item_free hash;;
  item_free payload;;
  net_send m;;
  item_free m;;
  r ← net_receive;
  hash ← pair_get_first r;
  payload ← pair_get_second r;
  item_free r;;
  hmacsha1_verify hash key payload;;
  item_free hash;;
  tag ← pair_get_first payload;
  tagValue ← item_get_data tag;
  (if negb (tagValue =? 1) then abort else mret tt);;
  item_free tag;;
  reqresp ← pair_get_second payload;
  item_free payload;;
  request1 ← pair_get_first reqresp;
  response ← pair_get_second reqresp;
  item_free reqresp;;
  eq ← item_equals request request1;
  (if negb eq then abort else mret tt);;
  item_free request1;;
  mret response.

(** [compute_response] stands for the server application.  Its contract
    takes the key chunk key(?key, ?creator, ?id) to get hold of the creator;
    the model passes that pointer.  The answer is the application's; the
    contract ensures mypub(resp) and response(creator, shared_with(creator,
    id), req, resp). *)
Definition compute_response (key request_ : ptr) : M ptr :=
  '(creator, id) ← consume_key key;
  req ← consume_item request_;
  if bad creator || bad (shared_with creator id)
     || request creator (shared_with creator id) req
  then
    produce_key key creator id;;
    produce_item request_ req;;
    resp ← next_answer;
    if mypub resp && response creator (shared_with creator id) req resp
    then alloc_item resp
    else fail Assumed
  else fail ContractViolation.

(** The body of the [for (;;)] loop of [server]. *)
Definition server_iteration (serverId : Z) (key : ptr) : M unit :=
  r ← net_receive;
  hash ← pair_get_first r;
  payload ← pair_get_second r;
  item_free r;;
  hmacsha1_verify hash key payload;;
  item_free hash;;
  tag ← pair_get_first payload;
  tagValue ← item_get_data tag;
  (if negb (tagValue =? 0) then abort else mret tt);;
  item_free tag;;
  request_ ← pair_get_second payload;
  item_free payload;;
  response_ ← compute_response key request_;
  reqresp ← create_pair request_ response_;
  item_free response_;;
  item_free request_;;
  tag ← create_data_item 1;
  payload ← create_pair tag reqresp;
  item_free tag;;
  item_free reqresp;;
  hash ← hmacsha1 key payload;
  m ← create_pair hash payload;
  item_free hash;;
  item_free payload;;
  net_send m;;
  item_free m.

(** [server] never returns: [fuel] bounds the iterations the model runs. *)
Fixpoint server (fuel : nat) (serverId : Z) (key : ptr) : M unit :=
  match fuel with
  | O => fail Exhausted
  | S fuel' => server_iteration serverId key;; server fuel' serverId key
  end.

(** The body of the inner loop of [attacker]: one action. *)
Definition attacker_action : M unit :=
  action ← choose;
  match action with
  | 0 =>
      (* Bad principals leak keys... *)
      item ← create_key;
      '(creator, id) ← open_key item;
      assume (bad creator || bad (shared_with creator id));;
      net_send item;;
      item_free item
  | 1 =>
      (* Anyone can publish arbitrary data items... *)
      data ← choose;
      item ← create_data_item data;
      net_send item;;
      item_free item
  | 2 =>
      (* Anyone can create pairs of public items... *)
      first ← net_receive;
      second ← net_receive;
      pair ← create_pair first second;
      item_free first;;
      item_free second;;
      net_send pair;;
      item_free pair
  | 3 =>
      (* Anyone can hash a public item with a published key... *)
      key ← net_receive;
      payload ← net_receive;
      check_is_key key;;
      hash ← hmacsha1 key payload;
      item_free key;;
      item_free payload;;
      net_send hash;;
      item_free hash
  | 4 =>
      (* Anyone can deconstruct a public pair... *)
      pair ← net_receive;
      first ← pair_get_first pair;
      second ← pair_get_second pair;
      item_free pair;;
      net_send first;;
      item_free first;;
      net_send second;;
      item_free second
  | _ => mret tt
  end.

(** The inner loop of [attacker], for [fuel] actions. *)
Fixpoint attacker_persona (fuel : nat) : M unit :=
  match fuel with
  | O => fail Exhausted
  | S fuel' => attacker_action;; attacker_persona fuel'
  end.

(** [attacker]: the outer loop creates a principal and enters the inner
    loop, which has no exit. *)
Definition attacker (fuel : nat) : M unit :=
  create_principal;; attacker_persona fuel.

(** The [requires] clause of [client]; the separating conjunction makes
    the two chunks distinct. *)
Definition client_requires (server key rq creator id : Z) (req : item)
    (s : state) : Prop :=
  world s = mypub /\
  items s !! key = Some (key_item creator id) /\
  items s !! rq = Some req /\ key <> rq /\
  mypub req = true /\
  request creator server req = true /\
  shared_with creator id = server.

(** The [ensures] clause of [client]. *)
Definition client_ensures (server key rq creator id : Z) (req : item)
    (result : Z) (resp : item) (s' : state) : Prop :=
  world s' = mypub /\
  items s' !! key = Some (key_item creator id) /\
  items s' !! rq = Some req /\
  items s' !! result = Some resp /\ result <> key /\ result <> rq /\
  (bad creator || bad server || response creator server req resp = true).



End Protocol.

(** ** A concrete scenario

    Principal 1 is the client and principal 2 the server; they share the key
    key_item(1, 0).  Principal 9 is bad.  The client has requested
    data_item(42), to which the server application answers data_item(7); it
    has also requested its own key, an item that is not public. *)
Module Scenario.

Definition bad (p : Z) : bool := p =? 9.

Definition shared_with (cl id : Z) : Z := if cl =? 1 then 2 else -1.

Definition request (cl sv : Z) (req : item) : bool :=
  (cl =? 1) && (sv =? 2)
  && (item_eqb req (data_item 42) || item_eqb req (key_item 1 0)).

Definition response (cl sv : Z) (req resp : item) : bool :=
  (cl =? 1) && (sv =? 2) && item_eqb req (data_item 42)
  && item_eqb resp (data_item 7).

Definition pub : item -> bool := mypub bad request response shared_with.

(** The client owns its key at address 10 and the request at address 11;
    the world offers the genuine response. *)
Definition client_state : state :=
  mkState {[ 10 := key_item 1 0; 11 := data_item 42 ]} pub [] None
          [response_message 1 0 (data_item 42) (data_item 7)] [] [] [].

(** The same client with a request that is not public: the key of a good
    principal. *)
Definition leaking_client_state : state :=
  mkState {[ 10 := key_item 1 0; 11 := key_item 1 0 ]} pub [] None
          [] [] [] [].

(** The server owns the key at address 10; the world offers the genuine
    request and the application answers data_item(7). *)
Definition server_state : state :=
  mkState {[ 10 := key_item 1 0 ]} pub [] None
          [request_message 1 0 (data_item 42)] [] [data_item 7] [].

(** An attacker persona, the bad principal 9, about to take action 0. *)
Definition attacker_state : state :=
  mkState ∅ pub [(9, 0)] (Some 10) [] [0] [] [].

(** A pair at address 20. *)
Definition pair_state : state :=
  mkState {[ 20 := pair_item (data_item 1) (key_item 1 0) ]} pub [] None
          [] [] [] [].

(** The client again, with its own request sent back to it by the world. *)
Definition reflected_client_state : state :=
  mkState {[ 10 := key_item 1 0; 11 := data_item 42 ]} pub [] None
          [request_message 1 0 (data_item 42)] [] [] [].

(** The server again, offered a response message in place of a request. *)
Definition confused_server_state : state :=
  mkState {[ 10 := key_item 1 0 ]} pub [] None
          [response_message 1 0 (data_item 42) (data_item 7)] [] [data_item 7] [].

(** The attacker persona 9 with the choices [cs] ahead of it and the world
    offering [w]. *)
Definition attacker_with (cs : list Z) (w : list item) : state :=
  mkState ∅ pub [(9, 0)] (Some 10) w cs [] [].

(** A persona that is not bad, principal 5, about to take action 0. *)
Definition good_persona_state : state :=
  mkState ∅ pub [(5, 0)] (Some 6) [] [0] [] [].

(** The same persona in a world whose pub admits every item. *)
Definition open_world_state : state :=
  mkState ∅ (fun _ => true) [(5, 0)] (Some 6) [] [0] [] [].

(** The start of [attacker] when the next principal, 9, is bad: it will
    leak a key, publish the data item 7 and then take an unknown action. *)
Definition attacker_start_state : state :=
  mkState ∅ pub [] (Some 9) [] [0; 1; 7; 8] [] [].

End Scenario.

(** * Properties *)

(** ** Equality of items *)

Lemma item_eqb_refl (i : item) : item_eqb i i = true.
Proof.
  induction i as [c n|d|c n p IHp|f IHf s IHs]; simpl;
    rewrite ?Z.eqb_refl, ?IHp, ?IHf, ?IHs; reflexivity.
Qed.

Lemma item_eqb_eq (i1 i2 : item) : item_eqb i1 i2 = true <-> i1 = i2.
Proof.
  split; [|intros ->; apply item_eqb_refl].
  revert i2.
  induction i1 as [c n|d|c n p IHp|f IHf s IHs]; intros [c' n'|d'|c' n' p'|f' s'];
    simpl; try discriminate; rewrite ?andb_true_iff, ?Z.eqb_eq.
  - intros [-> ->]; reflexivity.
  - intros ->; reflexivity.
  - intros [[-> ->] Hp]. f_equal. apply IHp, Hp.
  - intros [Hf Hs]. f_equal; [apply IHf, Hf | apply IHs, Hs].
Qed.

Lemma item_eqb_neq (i1 i2 : item) : item_eqb i1 i2 = false <-> i1 <> i2.
Proof.
  rewrite <- item_eqb_eq. destruct (item_eqb i1 i2); split; congruence.
Qed.

(** ** The heap of item chunks *)

Lemma fresh_ptr_above (m : gmap Z item) (p : Z) :
  is_Some (m !! p) -> p < fresh_ptr m.
Proof.
  unfold fresh_ptr. revert p.
  apply (map_fold_weak_ind
           (fun acc (m : gmap Z item) => forall p, is_Some (m !! p) -> p < acc)).
  - intros p [x Hx]. rewrite lookup_empty in Hx. discriminate.
  - intros q x m' acc Hq IH p Hp.
    destruct (decide (q = p)) as [->|Hne]; [lia|].
    rewrite lookup_insert_ne in Hp by exact Hne.
    specialize (IH p Hp). lia.
Qed.

Lemma fresh_ptr_None (m : gmap Z item) : m !! fresh_ptr m = None.
Proof.
  destruct (m !! fresh_ptr m) eqn:E; [|reflexivity].
  assert (fresh_ptr m < fresh_ptr m) by (apply fresh_ptr_above; eauto). lia.
Qed.

Lemma state_items_same (s : state) (m : gmap Z item) :
  m = items s ->
  mkState m (world s) (principal_chunks s) (principals s)
          (wire s) (choices s) (answers s) (sent s) = s.
Proof. intros ->. destruct s; reflexivity. Qed.

Lemma restore_item (s : state) (p : Z) (i : item) :
  items s !! p = Some i ->
  set_items (insert p i) (set_items (delete p) s) = s.
Proof.
  intros H. unfold set_items; simpl. apply state_items_same.
  rewrite insert_delete_eq. apply insert_id, H.
Qed.

Lemma restore_two (s : state) (p q : Z) (i j : item) :
  items s !! p = Some i -> items s !! q = Some j -> p <> q ->
  set_items (insert q j)
    (set_items (insert p i) (set_items (delete q) (set_items (delete p) s))) = s.
Proof.
  intros Hp Hq Hne. unfold set_items; simpl. apply state_items_same.
  apply map_eq. intros k.
  destruct (decide (k = q)) as [->|Hkq]; [rewrite lookup_insert_eq; congruence|].
  rewrite lookup_insert_ne by congruence.
  destruct (decide (k = p)) as [->|Hkp]; [rewrite lookup_insert_eq; congruence|].
  rewrite lookup_insert_ne by congruence.
  rewrite !lookup_delete_ne by congruence. reflexivity.
Qed.

Lemma restore_three (s : state) (p q r : Z) (i j k : item) :
  items s !! p = Some i -> items s !! q = Some j -> items s !! r = Some k ->
  p <> q -> p <> r -> q <> r ->
  set_items (insert r k) (set_items (insert q j) (set_items (insert p i)
    (set_items (delete r) (set_items (delete q) (set_items (delete p) s))))) = s.
Proof.
  intros Hp Hq Hr Hpq Hpr Hqr. unfold set_items; simpl. apply state_items_same.
  apply map_eq. intros x.
  destruct (decide (x = r)) as [->|Hxr]; [rewrite lookup_insert_eq; congruence|].
  rewrite lookup_insert_ne by congruence.
  destruct (decide (x = q)) as [->|Hxq]; [rewrite lookup_insert_eq; congruence|].
  rewrite lookup_insert_ne by congruence.
  destruct (decide (x = p)) as [->|Hxp]; [rewrite lookup_insert_eq; congruence|].
  rewrite lookup_insert_ne by congruence.
  rewrite !lookup_delete_ne by congruence. reflexivity.
Qed.

(** ** What each wrapper does when its precondition holds *)

Lemma bind_run {A B} (m : M A) (k : A -> M B) (s : state) :
  (m ≫= k) s = match m s with
               | Ret a s' => k a s'
               | Stop why s' => Stop why s'
               end.
Proof. reflexivity. Qed.

Lemma consume_item_run (s : state) (p : Z) (i : item) :
  items s !! p = Some i -> consume_item p s = Ret i (set_items (delete p) s).
Proof. intros H. unfold consume_item. rewrite H. reflexivity. Qed.

Lemma consume_item_missing (s : state) (p : Z) :
  items s !! p = None -> consume_item p s = Stop ContractViolation s.
Proof. intros H. unfold consume_item. rewrite H. reflexivity. Qed.

Lemma item_free_run (s : state) (p : Z) (i : item) :
  items s !! p = Some i -> item_free p s = Ret tt (set_items (delete p) s).
Proof.
  intros H. unfold item_free. rewrite bind_run, (consume_item_run _ _ _ H).
  reflexivity.
Qed.

Lemma item_get_data_run (s : state) (p : Z) (i : item) :
  items s !! p = Some i ->
  item_get_data p s =
    match i with
    | data_item d => Ret d s
    | _ => Stop TagMismatch (set_items (delete p) s)
    end.
Proof.
  intros H. unfold item_get_data. rewrite bind_run, (consume_item_run _ _ _ H).
  destruct i; try reflexivity.
  rewrite bind_run. unfold produce_item. rewrite (restore_item _ _ _ H).
  reflexivity.
Qed.

Lemma check_is_key_run (s : state) (p : Z) (i : item) :
  items s !! p = Some i ->
  check_is_key p s =
    match i with
    | key_item _ _ => Ret tt s
    | _ => Stop TagMismatch (set_items (delete p) s)
    end.
Proof.
  intros H. unfold check_is_key. rewrite bind_run, (consume_item_run _ _ _ H).
  destruct i; try reflexivity.
  unfold produce_item. rewrite (restore_item _ _ _ H). reflexivity.
Qed.

Lemma pair_get_first_run (s : state) (p : Z) (i : item) :
  items s !! p = Some i ->
  pair_get_first p s =
    match i with
    | pair_item f _ => alloc_item f s
    | _ => Stop TagMismatch s
    end.
Proof.
  intros H. unfold pair_get_first.
  rewrite bind_run, (consume_item_run _ _ _ H), bind_run.
  unfold produce_item. rewrite (restore_item _ _ _ H).
  destruct i; reflexivity.
Qed.

Lemma pair_get_second_run (s : state) (p : Z) (i : item) :
  items s !! p = Some i ->
  pair_get_second p s =
    match i with
    | pair_item _ sv => alloc_item sv s
    | _ => Stop TagMismatch s
    end.
Proof.
  intros H. unfold pair_get_second.
  rewrite bind_run, (consume_item_run _ _ _ H), bind_run.
  unfold produce_item. rewrite (restore_item _ _ _ H).
  destruct i; reflexivity.
Qed.

Lemma consume_second (s : state) (p q : Z) (j : item) :
  items s !! q = Some j -> p <> q ->
  consume_item q (set_items (delete p) s)
  = Ret j (set_items (delete q) (set_items (delete p) s)).
Proof.
  intros Hq Hne. apply consume_item_run. simpl.
  rewrite lookup_delete_ne by exact Hne. exact Hq.
Qed.

Lemma create_pair_run (s : state) (first second : Z) (f sv : item) :
  items s !! first = Some f -> items s !! second = Some sv -> first <> second ->
  create_pair first second s = alloc_item (pair_item f sv) s.
Proof.
  intros Hf Hs Hne. unfold create_pair.
  rewrite bind_run, (consume_item_run _ _ _ Hf).
  rewrite bind_run, (consume_second _ _ _ _ Hs Hne).
  repeat (rewrite bind_run; unfold produce_item; cbv beta iota).
  rewrite (restore_two _ _ _ _ _ Hf Hs Hne). reflexivity.
Qed.

Lemma item_equals_run (s : state) (item1 item2 : Z) (i1 i2 : item) :
  items s !! item1 = Some i1 -> items s !! item2 = Some i2 -> item1 <> item2 ->
  item_equals item1 item2 s = Ret (item_eqb i1 i2) s.
Proof.
  intros H1 H2 Hne. unfold item_equals.
  rewrite bind_run, (consume_item_run _ _ _ H1).
  rewrite bind_run, (consume_second _ _ _ _ H2 Hne).
  repeat (rewrite bind_run; unfold produce_item; cbv beta iota).
  rewrite (restore_two _ _ _ _ _ H1 H2 Hne). reflexivity.
Qed.

Lemma consume_key_run (s : state) (p creator id : Z) :
  items s !! p = Some (key_item creator id) ->
  consume_key p s = Ret (creator, id) (set_items (delete p) s).
Proof.
  intros H. unfold consume_key. rewrite bind_run, (consume_item_run _ _ _ H).
  reflexivity.
Qed.

Lemma hmacsha1_run (s : state) (key payload creator id : Z) (p : item) :
  items s !! key = Some (key_item creator id) -> items s !! payload = Some p ->
  key <> payload ->
  hmacsha1 key payload s = alloc_item (hmacsha1_item creator id p) s.
Proof.
  intros Hk Hp Hne. unfold hmacsha1.
  rewrite bind_run, (consume_key_run _ _ _ _ Hk).
  rewrite bind_run, (consume_second _ _ _ _ Hp Hne).
  repeat (rewrite bind_run; unfold produce_key, produce_item; cbv beta iota).
  rewrite (restore_two _ _ _ _ _ Hk Hp Hne). reflexivity.
Qed.

Lemma hmacsha1_verify_run (s : state) (hash key payload creator id : Z) (h p : item) :
  items s !! hash = Some h -> items s !! key = Some (key_item creator id) ->
  items s !! payload = Some p ->
  hash <> key -> hash <> payload -> key <> payload ->
  hmacsha1_verify hash key payload s =
    if item_eqb h (hmacsha1_item creator id p) then Ret tt s
    else Stop HashMismatch s.
Proof.
  intros Hh Hk Hp Hhk Hhp Hkp. unfold hmacsha1_verify.
  rewrite bind_run, (consume_item_run _ _ _ Hh).
  rewrite bind_run. unfold consume_key at 1.
  rewrite bind_run, (consume_second _ _ _ _ Hk Hhk). simpl.
  rewrite bind_run.
  assert (Hp' : items (set_items (delete key) (set_items (delete hash) s))
                  !! payload = Some p).
  { simpl. rewrite !lookup_delete_ne by congruence. exact Hp. }
  rewrite (consume_item_run _ _ _ Hp').
  repeat (rewrite bind_run; unfold produce_key, produce_item; cbv beta iota).
  rewrite (restore_three _ _ _ _ _ _ _ Hh Hk Hp Hhk Hhp Hkp).
  destruct (item_eqb h (hmacsha1_item creator id p)); reflexivity.
Qed.

Lemma net_send_run (s : state) (datagram : Z) (d : item) :
  items s !! datagram = Some d ->
  net_send datagram s =
    if world s d then Ret tt (log_sent d s)
    else Stop ContractViolation (set_items (delete datagram) s).
Proof.
  intros H. unfold net_send.
  rewrite bind_run, (consume_item_run _ _ _ H), bind_run.
  unfold world_allows. simpl. destruct (world s d); [|reflexivity].
  rewrite bind_run. unfold log_send, produce_item.
  f_equal. unfold log_sent, set_items. simpl.
  rewrite insert_delete_eq, (insert_id _ _ _ H). reflexivity.
Qed.

Lemma net_receive_run (s : state) (d : item) (rest : list item) :
  wire s = d :: rest ->
  net_receive s =
    if world s d then alloc_item d (set_wire rest s) else Stop Assumed s.
Proof. intros H. unfold net_receive. rewrite H. reflexivity. Qed.

Lemma wp_returns {A} E (m : M A) Q s a s' :
  wp E m Q s -> m s = Ret a s' -> Q a s'.
Proof. unfold wp. intros H R. rewrite R in H. exact H. Qed.

Lemma wp_stops {A} E (m : M A) Q s why s' :
  wp E m Q s -> m s = Stop why s' -> E why s'.
Proof. unfold wp. intros H R. rewrite R in H. exact H. Qed.

Lemma wp_bind {A B} E (m : M A) (k : A -> M B) Q s :
  wp E m (fun a s' => wp E (k a) Q s') s -> wp E (m ≫= k) Q s.
Proof.
  unfold wp. rewrite bind_run. destruct (m s); intros H; exact H.
Qed.

Lemma wp_ret {A} E (a : A) (Q : A -> state -> Prop) s :
  Q a s -> wp E (mret a) Q s.
Proof. intros H. exact H. Qed.

Lemma wp_abort {A} E (Q : A -> state -> Prop) s :
  E AbortCall s -> wp E abort Q s.
Proof. intros H. exact H. Qed.

Lemma wp_assume E (b : bool) (Q : unit -> state -> Prop) s :
  Q tt s -> wp E (assume b) Q s.
Proof. intros H. exact H. Qed.

Lemma wp_alloc_item E i (Q : Z -> state -> Prop) s :
  (forall p, items s !! p = None -> Q p (set_items (insert p i) s)) ->
  wp E (alloc_item i) Q s.
Proof. intros H. unfold wp, alloc_item. apply H, fresh_ptr_None. Qed.

Lemma wp_create_data_item E data (Q : Z -> state -> Prop) s :
  (forall p, items s !! p = None -> Q p (set_items (insert p (data_item data)) s)) ->
  wp E (create_data_item data) Q s.
Proof. apply wp_alloc_item. Qed.

Lemma wp_create_pair E first second f sv (Q : Z -> state -> Prop) s :
  items s !! first = Some f -> items s !! second = Some sv -> first <> second ->
  (forall p, items s !! p = None -> Q p (set_items (insert p (pair_item f sv)) s)) ->
  wp E (create_pair first second) Q s.
Proof.
  intros Hf Hs Hne H. unfold wp. rewrite (create_pair_run _ _ _ _ _ Hf Hs Hne).
  apply (wp_alloc_item E _ _ _ H).
Qed.

Lemma wp_hmacsha1 E key payload creator id p (Q : Z -> state -> Prop) s :
  items s !! key = Some (key_item creator id) -> items s !! payload = Some p ->
  key <> payload ->
  (forall r, items s !! r = None ->
             Q r (set_items (insert r (hmacsha1_item creator id p)) s)) ->
  wp E (hmacsha1 key payload) Q s.
Proof.
  intros Hk Hp Hne H. unfold wp. rewrite (hmacsha1_run _ _ _ _ _ _ Hk Hp Hne).
  apply (wp_alloc_item E _ _ _ H).
Qed.

Lemma wp_item_free E p i (Q : unit -> state -> Prop) s :
  items s !! p = Some i -> Q tt (set_items (delete p) s) ->
  wp E (item_free p) Q s.
Proof. intros Hp H. unfold wp. rewrite (item_free_run _ _ _ Hp). exact H. Qed.

Lemma wp_net_send E datagram d (Q : unit -> state -> Prop) s :
  items s !! datagram = Some d ->
  (world s d = true -> Q tt (log_sent d s)) ->
  (world s d = false -> E ContractViolation (set_items (delete datagram) s)) ->
  wp E (net_send datagram) Q s.
Proof.
  intros Hd H1 H2. unfold wp. rewrite (net_send_run _ _ _ Hd).
  destruct (world s d); [apply H1|apply H2]; reflexivity.
Qed.

Lemma wp_net_receive E (Q : Z -> state -> Prop) s :
  (forall d rest r, wire s = d :: rest -> world s d = true ->
                    items s !! r = None ->
                    Q r (set_items (insert r d) (set_wire rest s))) ->
  (forall d rest, wire s = d :: rest -> world s d = false -> E Assumed s) ->
  (wire s = [] -> E Exhausted s) ->
  wp E net_receive Q s.
Proof.
  intros H1 H2 H3. unfold wp, net_receive.
  destruct (wire s) as [|d rest] eqn:Ew; [apply H3; reflexivity|].
  destruct (world s d) eqn:Ed; [|apply (H2 d rest); [reflexivity|exact Ed]].
  apply (wp_alloc_item E d Q (set_wire rest s)). intros p Hp.
  apply (H1 d rest p); [reflexivity | exact Ed | exact Hp].
Qed.

Lemma wp_pair_get_first E pair p (Q : Z -> state -> Prop) s :
  items s !! pair = Some p ->
  (forall f sv r, p = pair_item f sv -> items s !! r = None ->
                  Q r (set_items (insert r f) s)) ->
  ((forall f sv, p <> pair_item f sv) -> E TagMismatch s) ->
  wp E (pair_get_first pair) Q s.
Proof.
  intros Hp H1 H2. unfold wp. rewrite (pair_get_first_run _ _ _ Hp).
  destruct p as [| | |f sv]; try (apply H2; discriminate).
  apply (wp_alloc_item E f Q s). intros r Hr. apply (H1 f sv r eq_refl Hr).
Qed.

Lemma wp_pair_get_second E pair p (Q : Z -> state -> Prop) s :
  items s !! pair = Some p ->
  (forall f sv r, p = pair_item f sv -> items s !! r = None ->
                  Q r (set_items (insert r sv) s)) ->
  ((forall f sv, p <> pair_item f sv) -> E TagMismatch s) ->
  wp E (pair_get_second pair) Q s.
Proof.
  intros Hp H1 H2. unfold wp. rewrite (pair_get_second_run _ _ _ Hp).
  destruct p as [| | |f sv]; try (apply H2; discriminate).
  apply (wp_alloc_item E sv Q s). intros r Hr. apply (H1 f sv r eq_refl Hr).
Qed.

Lemma wp_item_get_data E p i (Q : Z -> state -> Prop) s :
  items s !! p = Some i ->
  (forall d, i = data_item d -> Q d s) ->
  ((forall d, i <> data_item d) -> E TagMismatch (set_items (delete p) s)) ->
  wp E (item_get_data p) Q s.
Proof.
  intros Hp H1 H2. unfold wp. rewrite (item_get_data_run _ _ _ Hp).
  destruct i; try (apply H2; discriminate). apply H1. reflexivity.
Qed.

Lemma wp_check_is_key E p i (Q : unit -> state -> Prop) s :
  items s !! p = Some i ->
  (forall creator id, i = key_item creator id -> Q tt s) ->
  ((forall creator id, i <> key_item creator id) ->
   E TagMismatch (set_items (delete p) s)) ->
  wp E (check_is_key p) Q s.
Proof.
  intros Hp H1 H2. unfold wp. rewrite (check_is_key_run _ _ _ Hp).
  destruct i; try (apply H2; discriminate). eapply H1. reflexivity.
Qed.

Lemma wp_hmacsha1_verify E hash key payload creator id h p
    (Q : unit -> state -> Prop) s :
  items s !! hash = Some h -> items s !! key = Some (key_item creator id) ->
  items s !! payload = Some p ->
  hash <> key -> hash <> payload -> key <> payload ->
  (h = hmacsha1_item creator id p -> Q tt s) ->
  (h <> hmacsha1_item creator id p -> E HashMismatch s) ->
  wp E (hmacsha1_verify hash key payload) Q s.
Proof.
  intros Hh Hk Hp N1 N2 N3 H1 H2. unfold wp.
  rewrite (hmacsha1_verify_run _ _ _ _ _ _ _ _ Hh Hk Hp N1 N2 N3).
  destruct (item_eqb h (hmacsha1_item creator id p)) eqn:Eh.
  - apply H1, item_eqb_eq, Eh.
  - apply H2, item_eqb_neq, Eh.
Qed.

Lemma wp_item_equals E item1 item2 i1 i2 (Q : bool -> state -> Prop) s :
  items s !! item1 = Some i1 -> items s !! item2 = Some i2 -> item1 <> item2 ->
  Q (item_eqb i1 i2) s ->
  wp E (item_equals item1 item2) Q s.
Proof.
  intros H1 H2 Hne H. unfold wp.
  rewrite (item_equals_run _ _ _ _ _ H1 H2 Hne). exact H.
Qed.

(** Keeping track of the live chunks from one statement to the next. *)

Lemma items_log_sent d s : items (log_sent d s) = items s.
Proof. reflexivity. Qed.

Lemma items_set_wire l s : items (set_wire l s) = items s.
Proof. reflexivity. Qed.

Lemma items_set_answers l s : items (set_answers l s) = items s.
Proof. reflexivity. Qed.

Lemma items_set_choices l s : items (set_choices l s) = items s.
Proof. reflexivity. Qed.

Lemma items_set_principal_chunks l s :
  items (set_principal_chunks l s) = items s.
Proof. reflexivity. Qed.

Lemma live_alloc s p v q w :
  items s !! p = None -> items s !! q = Some w ->
  items (set_items (insert p v) s) !! q = Some w.
Proof.
  intros Hp Hq. simpl. rewrite lookup_insert_ne; [exact Hq|congruence].
Qed.

Lemma live_new s p v : items (set_items (insert p v) s) !! p = Some v.
Proof. simpl. apply lookup_insert_eq. Qed.

Lemma live_free s p q w :
  p <> q -> items s !! q = Some w ->
  items (set_items (delete p) s) !! q = Some w.
Proof. intros Hne Hq. simpl. rewrite lookup_delete_ne; [exact Hq|exact Hne]. Qed.

Lemma fresh_differs s p q w :
  items s !! p = None -> items s !! q = Some w -> p <> q.
Proof. congruence. Qed.

Ltac ne_solver := assumption || (apply not_eq_sym; assumption).

(* a branch that the run at hand does not take, or a stop that is allowed *)
Ltac off_path :=
  intros;
  solve [ hnf; discriminate
        | hnf; congruence
        | exfalso; eauto
        | exfalso; congruence ].

(* after an allocation: the goal runs from [set_items (insert p v) s] *)
Ltac after_alloc Hp :=
  lazymatch type of Hp with
  | items ?s !! ?p = None =>
      lazymatch goal with
      | |- wp _ _ _ (set_items (insert p ?v) s) =>
          repeat match goal with
                 | H : items s !! ?q = Some ?w |- _ =>
                     pose proof (fresh_differs s p q w Hp H);
                     apply (live_alloc s p v q w Hp) in H
                 end;
          pose proof (live_new s p v);
          clear Hp
      end
  end.

(* after freeing [p] in state [s] *)
Ltac after_free p s :=
  repeat match goal with
         | H : items s !! p = Some _ |- _ => clear H
         | H : items s !! ?q = Some ?w |- _ =>
             apply (live_free s p q w ltac:(ne_solver)) in H
         end.

(* after a step that leaves the item chunks alone: the facts move to the
   new state by rewriting, which keeps the proof term small *)
Ltac retarget_to s' :=
  lazymatch s' with
  | log_sent ?d ?s =>
      repeat match goal with
             | H : items s !! _ = _ |- _ => rewrite <- (items_log_sent d s) in H
             end
  | set_wire ?l ?s =>
      repeat match goal with
             | H : items s !! _ = _ |- _ => rewrite <- (items_set_wire l s) in H
             end
  | set_answers ?l ?s =>
      repeat match goal with
             | H : items s !! _ = _ |- _ => rewrite <- (items_set_answers l s) in H
             end
  | set_choices ?l ?s =>
      repeat match goal with
             | H : items s !! _ = _ |- _ => rewrite <- (items_set_choices l s) in H
             end
  | set_principal_chunks ?l ?s =>
      repeat match goal with
             | H : items s !! _ = _ |- _ =>
                 rewrite <- (items_set_principal_chunks l s) in H
             end
  end.
Ltac retarget :=
  lazymatch goal with |- wp _ _ _ ?s' => retarget_to s' end.

Ltac retarget_inner :=
  lazymatch goal with
  | |- wp _ _ _ (set_items _ ?s') => retarget_to s'
  end.

Ltac wp_next :=
  lazymatch goal with
  | |- wp _ (_ ≫= _) _ _ => apply wp_bind
  | _ => idtac
  end.
Ltac wp_alloc lem :=
  wp_next; eapply lem; [try eassumption; try ne_solver ..|];
  let p := fresh "p" in let Hp := fresh "Hp" in
  intros p Hp; after_alloc Hp.
Ltac wp_free :=
  wp_next;
  lazymatch goal with
  | |- wp _ (item_free ?p) _ ?s =>
      eapply wp_item_free; [eassumption|]; cbv beta; after_free p s
  end.
Ltac wp_receive d rest Hwire Hd :=
  wp_next; apply wp_net_receive; [|try off_path..];
  [ let r := fresh "r" in let Hr := fresh "Hr" in
    intros d rest r Hwire Hd Hr;
    retarget_inner; after_alloc Hr | .. ].
Ltac wp_pair lem f sv E :=
  wp_next; eapply lem; [eassumption| |try off_path];
  [ let r := fresh "r" in let Hr := fresh "Hr" in
    intros f sv r E Hr; after_alloc Hr | .. ].
Ltac wp_data d E :=
  wp_next; eapply wp_item_get_data; [eassumption| |try off_path];
  [ intros d E; cbv beta | .. ].
Ltac wp_verify E :=
  wp_next; eapply wp_hmacsha1_verify;
  [eassumption | eassumption | eassumption
  | ne_solver | ne_solver | ne_solver | | try off_path];
  [ intros E; cbv beta | .. ].
(* world s' d = b in [H], where [s'] is built on [s] and world s = pub *)
Ltac world_in s Hw H :=
  lazymatch type of H with
  | world _ ?d = ?b => change (world s d = b) in H; rewrite Hw in H
  end.

Section Integrity.

Context (bad : Z -> bool).
Context (request : Z -> Z -> item -> bool).
Context (response : Z -> Z -> item -> item -> bool).
Context (shared_with : Z -> Z -> Z).

Local Abbreviation mypub := (mypub bad request response shared_with).
Local Abbreviation client_requires :=
  (client_requires bad request response shared_with).
Local Abbreviation client_ensures :=
  (client_ensures bad request response shared_with).
Local Abbreviation compute_response :=
  (compute_response bad request response shared_with).
Local Abbreviation server_iteration :=
  (server_iteration bad request response shared_with).
Local Abbreviation attacker_action := (attacker_action bad shared_with).
Local Abbreviation attacker_persona := (attacker_persona bad shared_with).
Local Abbreviation attacker := (attacker bad shared_with).
Local Abbreviation server := (server bad request response shared_with).

Lemma client_wp (server key rq creator id : Z) (req : item) (s : state) :
  client_requires server key rq creator id req s ->
  wp safe (client server key rq)
     (fun result s' =>
        exists resp rest,
          client_ensures server key rq creator id req result resp s' /\
          wire s = response_message creator id req resp :: rest /\
          mypub (response_message creator id req resp) = true /\
          mypub resp = true)
     s.
Proof.
  intros (Hw & Hk & Hr & Hne & Hreq & Hev & Hsw). unfold client.
  wp_alloc wp_create_data_item.
  wp_alloc wp_create_pair.
  wp_free.
  wp_alloc wp_hmacsha1.
  wp_alloc wp_create_pair.
  wp_free. wp_free.
  wp_next. eapply wp_net_send; [eassumption| intros _; cbv beta |].
  2:{ intros Hno. world_in s Hw Hno. simpl in Hno.
      rewrite Hsw, Hev, Hreq, !orb_true_r in Hno. discriminate. }
  retarget. wp_free.
  wp_receive d rest Hwire Hd.
  wp_pair wp_pair_get_first h pl E. subst d.
  wp_pair wp_pair_get_second h' pl' E. injection E as <- <-.
  wp_free.
  wp_verify E. subst h.
  wp_free.
  wp_pair wp_pair_get_first t rr E. subst pl.
  wp_data tv E. subst t.
  wp_next. destruct (Z.eqb_spec tv 1) as [->|Htv]; simpl negb; cbv iota;
    [apply wp_ret|apply wp_abort; off_path].
  wp_free.
  wp_pair wp_pair_get_second t' rr' E. injection E as <- <-.
  wp_free.
  wp_pair wp_pair_get_first rq1 resp E. subst rr.
  wp_pair wp_pair_get_second rq1' resp' E. injection E as <- <-.
  wp_free.
  wp_next. eapply wp_item_equals; [eassumption | eassumption | ne_solver |].
  cbv beta.
  wp_next. destruct (item_eqb req rq1) eqn:Eeq; simpl negb; cbv iota;
    [apply wp_ret|apply wp_abort; off_path].
  apply item_eqb_eq in Eeq. subst rq1.
  wp_free.
  apply wp_ret.
  world_in s Hw Hd. pose proof Hd as Hmsg. simpl in Hd. rewrite Hsw in Hd.
  apply andb_true_iff in Hd as [Hh Hpl].
  apply andb_true_iff in Hpl as [_ Hresp].
  exists resp, rest. unfold client_ensures. repeat split; try assumption.
Qed.

(** Without mypub(req) the precondition of the [net_send] in [client]
    fails. *)
Lemma client_unpublishable_request (server key rq creator id : Z) (req : item)
    (s : state) :
  world s = mypub ->
  items s !! key = Some (key_item creator id) ->
  items s !! rq = Some req -> key <> rq ->
  mypub req = false ->
  wp (fun why _ => why = ContractViolation) (client server key rq)
     (fun _ _ => False) s.
Proof.
  intros Hw Hk Hr Hne Hreq. unfold client.
  wp_alloc wp_create_data_item.
  wp_alloc wp_create_pair.
  wp_free.
  wp_alloc wp_hmacsha1.
  wp_alloc wp_create_pair.
  wp_free. wp_free.
  wp_next. eapply wp_net_send; [eassumption| |reflexivity].
  intros Hyes. world_in s Hw Hyes. simpl in Hyes.
  rewrite Hreq, andb_false_r in Hyes. discriminate.
Qed.

(** A call that returns had a public request: the whole [requires] clause
    held. *)
Lemma client_returns_requires (server key rq creator id : Z) (req : item)
    (s s' : state) (result : Z) :
  world s = mypub ->
  items s !! key = Some (key_item creator id) ->
  items s !! rq = Some req -> key <> rq ->
  request creator server req = true ->
  shared_with creator id = server ->
  client server key rq s = Ret result s' ->
  client_requires server key rq creator id req s.
Proof.
  intros Hw Hk Hr Hne Hev Hsw Hrun.
  destruct (mypub req) eqn:Hreq.
  - unfold client_requires. repeat split; assumption.
  - destruct (wp_returns _ _ _ _ _ _
                (client_unpublishable_request server _ _ _ _ _ _ Hw Hk Hr Hne Hreq)
                Hrun).
Qed.

(** C1. End-to-end client integrity: when [client(server, key, request)] is
    called in world(mypub) by a caller that owns the key chunk key(key,
    creator, id), with shared_with(creator, id) == server and
    request(creator, server, req), and the call returns, the result
    represents an item [resp] with bad(creator), or bad(server), or
    response(creator, server, req, resp); the world and the two chunks of
    the caller are given back. *)
Theorem client_integrity (server key rq creator id : Z) (req : item)
    (s s' : state) (result : Z) :
  world s = mypub ->
  items s !! key = Some (key_item creator id) ->
  items s !! rq = Some req -> key <> rq ->
  request creator server req = true ->
  shared_with creator id = server ->
  client server key rq s = Ret result s' ->
  exists resp,
    client_ensures server key rq creator id req result resp s' /\
    (bad creator || bad server || response creator server req resp = true).
Proof.
  intros Hw Hk Hr Hne Hev Hsw Hrun.
  pose proof (client_returns_requires _ _ _ _ _ _ _ _ _ Hw Hk Hr Hne Hev Hsw Hrun)
    as Hpre.
  destruct (wp_returns _ _ _ _ _ _ (client_wp _ _ _ _ _ _ _ Hpre) Hrun)
    as (resp & rest & Hpost & _).
  exists resp. split; [exact Hpost|]. apply Hpost.
Qed.

(** C2. Soundness of [mypub] on hashes: when mypub(hmacsha1_item(creator,
    seq, m)) holds and neither creator nor shared_with(creator, seq) is bad,
    m is pair_item(data_item(tag), s) with either tag == 0 and
    request(creator, shared_with(creator, seq), s), or tag == 1 and s ==
    pair_item(req, resp) with response(creator, shared_with(creator, seq),
    req, resp). *)
Theorem mypub_hmac_sound (creator seq : Z) (m : item) :
  mypub (hmacsha1_item creator seq m) = true ->
  bad creator = false ->
  bad (shared_with creator seq) = false ->
  exists tag s,
    m = pair_item (data_item tag) s /\
    ((tag = 0 /\ request creator (shared_with creator seq) s = true) \/
     (tag = 1 /\ exists req resp,
        s = pair_item req resp /\
        response creator (shared_with creator seq) req resp = true)).
Proof.
  intros Hpub Hc Hs. simpl in Hpub. rewrite Hc, Hs in Hpub. simpl in Hpub.
  destruct m as [| | |f sv]; try discriminate.
  destruct f as [|tag| |]; try discriminate.
  exists tag, sv. split; [reflexivity|].
  destruct (Z.eqb_spec tag 0) as [->|H0]; [left; split; [reflexivity|exact Hpub]|].
  destruct (Z.eqb_spec tag 1) as [->|H1]; [|discriminate].
  right. split; [reflexivity|].
  destruct sv as [| | |req resp]; try discriminate.
  exists req, resp. split; [reflexivity|exact Hpub].
Qed.

(** C9. The contract of [client] has the further conjunct mypub(req) ==
    true: under the other conjuncts of the precondition the contract holds
    exactly when mypub(req) does, and a call with mypub(req) false violates
    the contract of [net_send] when the request is sent. *)
Theorem client_requires_pub_request (server key rq creator id : Z) (req : item)
    (s : state) :
  world s = mypub ->
  items s !! key = Some (key_item creator id) ->
  items s !! rq = Some req -> key <> rq ->
  request creator server req = true ->
  shared_with creator id = server ->
  (client_requires server key rq creator id req s <-> mypub req = true) /\
  (mypub req = false ->
   exists s', client server key rq s = Stop ContractViolation s').
Proof.
  intros Hw Hk Hr Hne Hev Hsw. split.
  - split.
    + intros (_ & _ & _ & _ & Hreq & _). exact Hreq.
    + intros Hreq. unfold client_requires. repeat split; assumption.
  - intros Hreq.
    pose proof (client_unpublishable_request server _ _ _ _ _ _ Hw Hk Hr Hne Hreq)
      as Hwp.
    unfold wp in Hwp. destruct (client server key rq s) as [a s'|why s'].
    + destruct Hwp.
    + subst why. exists s'. reflexivity.
Qed.

(** C10. When [client] returns under its precondition, the item [resp] that
    the result represents satisfies mypub: it is the second component of
    the body of the received message, the received message satisfies mypub,
    and mypub of a pair is the conjunction of mypub of its components. *)
Theorem client_response_pub (server key rq creator id : Z) (req : item)
    (s s' : state) (result : Z) :
  client_requires server key rq creator id req s ->
  client server key rq s = Ret result s' ->
  exists resp rest,
    items s' !! result = Some resp /\
    wire s = response_message creator id req resp :: rest /\
    mypub (response_message creator id req resp) = true /\
    (forall a b, mypub (pair_item a b) = mypub a && mypub b) /\
    mypub resp = true.
Proof.
  intros Hpre Hrun.
  destruct (wp_returns _ _ _ _ _ _ (client_wp _ _ _ _ _ _ _ Hpre) Hrun)
    as (resp & rest & Hpost & Hwire & Hmsg & Hresp).
  exists resp, rest. repeat split; try assumption.
  apply Hpost.
Qed.

(** ** The wrappers *)


(** C5. Constructor injectivity: key_item(p1, n1) == key_item(p2, n2) if and
    only if p1 == p2 and n1 == n2; hmacsha1_item(c, k, m1) ==
    hmacsha1_item(c, k, m2) implies m1 == m2; and [item_equals] returns
    true exactly when the two items it is given represent equal values, and
    leaves the state as it was. *)
Theorem item_injective_and_equals (s : state) (item1 item2 : Z) (i1 i2 : item) :
  items s !! item1 = Some i1 -> items s !! item2 = Some i2 -> item1 <> item2 ->
  (forall p1 n1 p2 n2,
     key_item p1 n1 = key_item p2 n2 <-> p1 = p2 /\ n1 = n2) /\
  (forall c k m1 m2, hmacsha1_item c k m1 = hmacsha1_item c k m2 -> m1 = m2) /\
  exists b, item_equals item1 item2 s = Ret b s /\ (b = true <-> i1 = i2).
Proof.
  intros H1 H2 Hne. split; [|split].
  - intros p1 n1 p2 n2. split.
    + intros [= -> ->]. split; reflexivity.
    + intros [-> ->]. reflexivity.
  - intros c k m1 m2 [= ->]. reflexivity.
  - exists (item_eqb i1 i2). split; [|apply item_eqb_eq].
    apply (item_equals_run _ _ _ _ _ H1 H2 Hne).
Qed.

(** C6. Round trip of the term model: on an item that represents
    pair_item(a, b), [pair_get_first] returns an item that represents a and
    [pair_get_second] one that represents b, the pair staying as it is; on
    an item that represents data_item(d), [item_get_data] returns d; and on
    an item of any other tag each of the three stops with a tag mismatch. *)
Theorem accessors_round_trip (s : state) (p : Z) (i : item) :
  items s !! p = Some i ->
  (forall a b, i = pair_item a b ->
     (exists r s', pair_get_first p s = Ret r s' /\
                   items s' !! r = Some a /\ items s' !! p = Some i) /\
     (exists r s', pair_get_second p s = Ret r s' /\
                   items s' !! r = Some b /\ items s' !! p = Some i)) /\
  (forall d, i = data_item d -> item_get_data p s = Ret d s) /\
  ((forall a b, i <> pair_item a b) ->
     pair_get_first p s = Stop TagMismatch s /\
     pair_get_second p s = Stop TagMismatch s) /\
  ((forall d, i <> data_item d) ->
     exists s', item_get_data p s = Stop TagMismatch s').
Proof.
  intros Hp.
  rewrite (pair_get_first_run _ _ _ Hp), (pair_get_second_run _ _ _ Hp),
    (item_get_data_run _ _ _ Hp).
  split; [|split; [|split]].
  - intros a b ->. split.
    + eexists _, _. split; [reflexivity|].
      split; [apply live_new|].
      apply live_alloc; [apply fresh_ptr_None|exact Hp].
    + eexists _, _. split; [reflexivity|].
      split; [apply live_new|].
      apply live_alloc; [apply fresh_ptr_None|exact Hp].
  - intros d ->. reflexivity.
  - intros H. destruct i as [| | |a b]; try (split; reflexivity).
    destruct (H a b). reflexivity.
  - intros H. destruct i as [|d| |]; eauto. destruct (H d). reflexivity.
Qed.

Lemma item_value_run (s : state) (p : Z) (i : item) :
  items s !! p = Some i -> item_value p s = Ret i s.
Proof.
  intros H. unfold item_value. rewrite bind_run, (consume_item_run _ _ _ H).
  rewrite bind_run. unfold produce_item. rewrite (restore_item _ _ _ H).
  reflexivity.
Qed.

Lemma open_key_run (s : state) (p creator id : Z) :
  items s !! p = Some (key_item creator id) -> open_key p s = Ret (creator, id) s.
Proof.
  intros H. unfold open_key. rewrite bind_run, (consume_key_run _ _ _ _ H).
  cbv beta iota. rewrite bind_run. unfold produce_item.
  rewrite (restore_item _ _ _ H). reflexivity.
Qed.

Lemma create_key_run (s : state) (principal keyCount : Z) (rest : list (Z * Z)) :
  principal_chunks s = (principal, keyCount) :: rest ->
  create_key s =
    alloc_item (key_item principal keyCount)
      (set_principal_chunks ((principal, keyCount + 1) :: rest) s).
Proof. intros H. unfold create_key. rewrite H. reflexivity. Qed.

Lemma create_keys_run (n : nat) :
  forall (s : state) (principal keyCount : Z) (rest : list (Z * Z)),
    principal_chunks s = (principal, keyCount) :: rest ->
    exists s',
      create_keys n s =
        Ret (map (fun j => key_item principal (keyCount + Z.of_nat j)) (seq 0 n)) s'
      /\ principal_chunks s' = (principal, keyCount + Z.of_nat n) :: rest.
Proof.
  induction n as [|n IH]; intros s principal keyCount rest Hs.
  - exists s. split; [reflexivity|]. rewrite Hs. f_equal. f_equal. simpl. lia.
  - cbn [create_keys]. rewrite bind_run, (create_key_run _ _ _ _ Hs).
    unfold alloc_item. cbv beta iota zeta.
    rewrite bind_run, (item_value_run _ _ (key_item principal keyCount));
      [|apply live_new].
    rewrite bind_run.
    match goal with
    | |- context [create_keys n ?s1] =>
        destruct (IH s1 principal (keyCount + 1) rest eq_refl) as (s' & Hrun & Hch)
    end.
    rewrite Hrun. exists s'. split.
    + cbn [seq map]. rewrite Z.add_0_r. unfold mret, M_ret, ret. do 2 f_equal.
      rewrite <- seq_shift, map_map. apply map_ext. intros j. f_equal. lia.
    + rewrite Hch. do 2 f_equal. lia.
Qed.

Lemma create_principals_run (n : nat) :
  forall (s : state) (count : Z),
    principals s = Some count ->
    exists s',
      create_principals n s = Ret tt s' /\
      principals s' = Some (count + Z.of_nat n) /\
      principal_chunks s' =
        rev (map (fun j => (count + Z.of_nat j, 0)) (seq 0 n)) ++ principal_chunks s.
Proof.
  induction n as [|n IH]; intros s count Hs.
  - exists s. split; [reflexivity|]. split; [|reflexivity].
    rewrite Hs. f_equal. simpl. lia.
  - cbn [create_principals]. rewrite bind_run. unfold create_principal.
    rewrite Hs.
    match goal with
    | |- context [create_principals n ?s1] =>
        destruct (IH s1 (count + 1) eq_refl) as (s' & Hrun & Hcnt & Hch)
    end.
    rewrite Hrun. exists s'. split; [reflexivity|]. split.
    + rewrite Hcnt. f_equal. lia.
    + rewrite Hch. cbn [seq map rev principal_chunks set_principal_chunks].
      rewrite Z.add_0_r, <- app_assoc. cbn [app]. f_equal. f_equal.
      rewrite <- seq_shift, map_map. apply map_ext. intros j. f_equal. lia.
Qed.

Lemma key_item_seq_NoDup (principal keyCount : Z) (n : nat) :
  NoDup (map (fun j => key_item principal (keyCount + Z.of_nat j)) (seq 0 n)).
Proof.
  apply NoDup_fmap_2; [|apply NoDup_seq].
  intros i j [= H]. lia.
Qed.

Lemma principal_id_seq_NoDup (count : Z) (n : nat) :
  NoDup (map (fun j => count + Z.of_nat j) (seq 0 n)).
Proof.
  apply NoDup_fmap_2; [|apply NoDup_seq].
  intros i j H. lia.
Qed.


Lemma wp_choose E (c : Z) (rest : list Z) (Q : Z -> state -> Prop) s :
  choices s = c :: rest -> Q c (set_choices rest s) -> wp E choose Q s.
Proof. intros Hc H. unfold wp, choose. rewrite Hc. exact H. Qed.

Lemma wp_create_key E principal keyCount rest (Q : Z -> state -> Prop) s :
  principal_chunks s = (principal, keyCount) :: rest ->
  (forall r, items s !! r = None ->
     Q r (set_items (insert r (key_item principal keyCount))
            (set_principal_chunks ((principal, keyCount + 1) :: rest) s))) ->
  wp E create_key Q s.
Proof.
  intros Hch H. unfold wp. rewrite (create_key_run _ _ _ _ Hch).
  apply (wp_alloc_item E (key_item principal keyCount) Q
           (set_principal_chunks ((principal, keyCount + 1) :: rest) s)).
  exact H.
Qed.

Lemma wp_open_key E p creator id (Q : Z * Z -> state -> Prop) s :
  items s !! p = Some (key_item creator id) -> Q (creator, id) s ->
  wp E (open_key p) Q s.
Proof. intros Hp H. unfold wp. rewrite (open_key_run _ _ _ _ Hp). exact H. Qed.

Lemma wp_compute_response E key rq creator id req (Q : Z -> state -> Prop) s :
  items s !! key = Some (key_item creator id) -> items s !! rq = Some req ->
  key <> rq ->
  bad creator || bad (shared_with creator id)
    || request creator (shared_with creator id) req = true ->
  (forall resp rest r,
     answers s = resp :: rest -> mypub resp = true ->
     response creator (shared_with creator id) req resp = true ->
     items s !! r = None ->
     Q r (set_items (insert r resp) (set_answers rest s))) ->
  (forall resp rest,
     answers s = resp :: rest ->
     mypub resp && response creator (shared_with creator id) req resp = false ->
     E Assumed (set_answers rest s)) ->
  (answers s = [] -> E Exhausted s) ->
  wp E (compute_response key rq) Q s.
Proof.
  intros Hk Hr Hne Hpre H1 H2 H3. unfold wp, compute_response.
  rewrite bind_run, (consume_key_run _ _ _ _ Hk). cbv beta iota.
  rewrite bind_run, (consume_second _ _ _ _ Hr Hne), Hpre.
  repeat (rewrite bind_run; unfold produce_key, produce_item; cbv beta iota).
  rewrite (restore_two _ _ _ _ _ Hk Hr Hne).
  unfold next_answer.
  destruct (answers s) as [|resp rest] eqn:Ea; [apply H3; reflexivity|].
  destruct (mypub resp && response creator (shared_with creator id) req resp)
    eqn:Eok.
  - apply andb_true_iff in Eok as [Hpub Hev].
    apply (wp_alloc_item E resp Q (set_answers rest s)). intros r Hr0.
    apply (H1 resp rest r eq_refl Hpub Hev Hr0).
  - apply (H2 resp rest eq_refl Eok).
Qed.

Lemma wp_choose_any E (Q : Z -> state -> Prop) s :
  (forall c rest, choices s = c :: rest -> Q c (set_choices rest s)) ->
  (choices s = [] -> E Exhausted s) ->
  wp E choose Q s.
Proof.
  intros H1 H2. unfold wp, choose.
  destruct (choices s) as [|c rest]; [apply H2|apply H1]; reflexivity.
Qed.

(** The loop invariant of the inner loop of [attacker]: whichever action is
    chosen, every [net_send] of the attacker is allowed by mypub; for
    action 0 this needs what its ghost [assume] supposes of the key the
    persona generates. *)
Lemma attacker_action_safe (s : state) (me keyCount : Z) (rest : list (Z * Z)) :
  world s = mypub ->
  principal_chunks s = (me, keyCount) :: rest ->
  (forall tape, choices s = 0 :: tape ->
                bad me || bad (shared_with me keyCount) = true) ->
  wp safe attacker_action
     (fun _ s' => world s' = mypub /\
                  exists keyCount', principal_chunks s' = (me, keyCount') :: rest)
     s.
Proof.
  intros Hw Hch Hleak. unfold attacker_action.
  wp_next. apply wp_choose_any; [|off_path]. intros action tape Hc. cbv beta.
  destruct action as [|p|p].
  - pose proof (Hleak tape Hc) as Hbad. clear Hleak.
    wp_next. eapply wp_create_key; [exact Hch|]. intros r Hr.
    retarget_inner. after_alloc Hr.
    wp_next. eapply wp_open_key; [eassumption|]. cbv beta iota.
    wp_next. apply wp_assume.
    wp_next. eapply wp_net_send; [eassumption| intros _ |].
    2:{ intros Hno. world_in s Hw Hno. simpl in Hno. congruence. }
    retarget. wp_free.
    split; [exact Hw|]. eexists. reflexivity.
  - destruct p as [[q|q|]|[q|[q|q|]|]|];
      try (apply wp_ret; split; [exact Hw|eexists; exact Hch]).
    + (* 3: anyone can hash a public item with a published key *)
      wp_receive k rest1 Hwire1 Hd1.
      wp_receive pl rest2 Hwire2 Hd2.
      wp_next. eapply wp_check_is_key; [eassumption| |off_path].
      intros creator id ->. cbv beta.
      wp_alloc wp_hmacsha1.
      wp_free. wp_free.
      wp_next. eapply wp_net_send; [eassumption| intros _ |].
      2:{ intros Hno. world_in s Hw Hno. world_in s Hw Hd1.
          simpl in Hno, Hd1. rewrite Hd1 in Hno. discriminate. }
      retarget. wp_free.
      split; [exact Hw|eexists; exact Hch].
    + (* 4: anyone can deconstruct a public pair *)
      wp_receive d rest1 Hwire1 Hd1.
      wp_pair wp_pair_get_first f sv E. subst d.
      wp_pair wp_pair_get_second f' sv' E. injection E as <- <-.
      wp_free.
      world_in s Hw Hd1. simpl in Hd1. apply andb_true_iff in Hd1 as [Hf Hsv].
      wp_next. eapply wp_net_send; [eassumption| intros _ |].
      2:{ intros Hno. world_in s Hw Hno. congruence. }
      retarget. wp_free.
      wp_next. eapply wp_net_send; [eassumption| intros _ |].
      2:{ intros Hno. world_in s Hw Hno. congruence. }
      retarget. wp_free.
      split; [exact Hw|eexists; exact Hch].
    + (* 2: anyone can create pairs of public items *)
      wp_receive d1 rest1 Hwire1 Hd1.
      wp_receive d2 rest2 Hwire2 Hd2.
      wp_alloc wp_create_pair.
      wp_free. wp_free.
      wp_next. eapply wp_net_send; [eassumption| intros _ |].
      2:{ intros Hno. world_in s Hw Hno. world_in s Hw Hd1. world_in s Hw Hd2.
          simpl in Hno. rewrite Hd1, Hd2 in Hno. discriminate. }
      retarget. wp_free.
      split; [exact Hw|eexists; exact Hch].
    + (* 1: anyone can publish arbitrary data items *)
      wp_next. apply wp_choose_any; [|off_path]. intros data tape' Hc'. cbv beta.
      wp_alloc wp_create_data_item.
      wp_next. eapply wp_net_send; [eassumption| intros _ |].
      2:{ intros Hno. world_in s Hw Hno. discriminate. }
      retarget. wp_free.
      split; [exact Hw|eexists; exact Hch].
  - apply wp_ret. split; [exact Hw|eexists; exact Hch].
Qed.

Lemma wp_mono {A} E (m : M A) (Q Q' : A -> state -> Prop) s :
  wp E m Q s -> (forall a s', Q a s' -> Q' a s') -> wp E m Q' s.
Proof.
  unfold wp. destruct (m s); intros H HQ; [apply HQ|]; exact H.
Qed.

(** The inner loop keeps its invariant and has no exit: [ensures false]. *)
Lemma attacker_persona_safe (fuel : nat) :
  forall (s : state) (me keyCount : Z) (rest : list (Z * Z)),
    world s = mypub ->
    principal_chunks s = (me, keyCount) :: rest ->
    (forall k, bad me || bad (shared_with me k) = true) ->
    wp safe (attacker_persona fuel) (fun _ _ => False) s.
Proof.
  induction fuel as [|fuel IH]; intros s me keyCount rest Hw Hch Hbad.
  - discriminate.
  - simpl attacker_persona. apply wp_bind.
    apply (wp_mono _ _ _ _ _
             (attacker_action_safe s me keyCount rest Hw Hch
                (fun _ _ => Hbad keyCount))).
    intros _ s' (Hw' & keyCount' & Hch').
    apply (IH s' me keyCount' rest Hw' Hch' Hbad).
Qed.

Lemma attacker_safe (fuel : nat) (s : state) (count : Z) :
  world s = mypub ->
  principals s = Some count ->
  (forall k, bad count || bad (shared_with count k) = true) ->
  wp safe (attacker fuel) (fun _ _ => False) s.
Proof.
  intros Hw Hcount Hbad. unfold attacker. apply wp_bind.
  unfold wp at 1, create_principal. rewrite Hcount.
  apply (attacker_persona_safe fuel _ count 0 (principal_chunks s));
    [exact Hw|reflexivity|exact Hbad].
Qed.

(** Action 0 of the attacker, in any world: the key the persona generates is
    handed to [net_send] whatever the badness facts are; what happens there
    is decided by the pub of the world alone. *)
Lemma attacker_leaks_key (s : state) (me keyCount : Z) (rest : list (Z * Z))
    (tape : list Z) :
  principal_chunks s = (me, keyCount) :: rest ->
  choices s = 0 :: tape ->
  wp (fun why s' =>
        why = ContractViolation /\ sent s' = sent s /\
        world s (key_item me keyCount) = false)
     attacker_action
     (fun _ s' =>
        sent s' = sent s ++ [key_item me keyCount] /\
        principal_chunks s' = (me, keyCount + 1) :: rest /\
        world s (key_item me keyCount) = true)
     s.
Proof.
  intros Hch Hc. unfold attacker_action.
  wp_next. eapply wp_choose; [exact Hc|]. cbv beta iota.
  wp_next. eapply wp_create_key; [exact Hch|]. intros r Hr.
  pose proof (live_new
                (set_principal_chunks ((me, keyCount + 1) :: rest)
                   (set_choices tape s)) r (key_item me keyCount)) as Hkey.
  clear Hr.
  wp_next. eapply wp_open_key; [exact Hkey|]. cbv beta iota.
  wp_next. apply wp_assume.
  wp_next. eapply wp_net_send; [exact Hkey| intros Hyes |].
  2:{ intros Hno. split; [reflexivity|]. split; [reflexivity|exact Hno]. }
  retarget. wp_free.
  split; [reflexivity|]. split; [reflexivity|exact Hyes].
Qed.


Lemma server_iteration_wp (serverId key creator id : Z) (s : state) :
  world s = mypub ->
  items s !! key = Some (key_item creator id) ->
  shared_with creator id = serverId ->
  wp safe (server_iteration serverId key)
     (fun _ s' =>
        exists req resp rest more,
          wire s = request_message creator id req :: rest /\
          answers s = resp :: more /\
          response creator (shared_with creator id) req resp = true /\
          sent s' = sent s ++ [response_message creator id req resp] /\
          mypub (response_message creator id req resp) = true /\
          world s' = mypub /\
          items s' !! key = Some (key_item creator id) /\
          wire s' = rest /\ answers s' = more)
     s.
Proof.
  intros Hw Hk Hsw. unfold server_iteration.
  wp_receive d rest Hwire Hd.
  wp_pair wp_pair_get_first h pl E. subst d.
  wp_pair wp_pair_get_second h' pl' E. injection E as <- <-.
  wp_free.
  wp_verify E. subst h.
  wp_free.
  wp_pair wp_pair_get_first t rr E. subst pl.
  wp_data tv E. subst t.
  wp_next. destruct (Z.eqb_spec tv 0) as [->|Htv]; simpl negb; cbv iota;
    [apply wp_ret|apply wp_abort; off_path].
  wp_free.
  wp_pair wp_pair_get_second t' rr' E. injection E as <- <-.
  wp_free.
  world_in s Hw Hd. pose proof Hd as Hmsg. simpl in Hd.
  apply andb_true_iff in Hd as [Hh Hpl].
  wp_next. eapply wp_compute_response;
    [eassumption | eassumption | ne_solver | exact Hh | | off_path | off_path].
  intros resp more answer Hans Hresp Hev Hanswer.
  retarget_inner. after_alloc Hanswer.
  wp_alloc wp_create_pair.
  wp_free. wp_free.
  wp_alloc wp_create_data_item.
  wp_alloc wp_create_pair.
  wp_free. wp_free.
  wp_alloc wp_hmacsha1.
  wp_alloc wp_create_pair.
  wp_free. wp_free.
  assert (Hreply : mypub (response_message creator id rr resp) = true).
  { simpl. rewrite Hev, Hpl, Hresp, !orb_true_r. reflexivity. }
  wp_next. eapply wp_net_send; [eassumption| intros _; cbv beta |].
  2:{ intros Hno. world_in s Hw Hno. unfold response_message in Hreply. congruence. }
  retarget. wp_free.
  exists rr, resp, rest, more.
  split; [exact Hwire|]. split; [exact Hans|]. split; [exact Hev|].
  split; [reflexivity|]. split; [exact Hreply|]. split; [exact Hw|].
  split; [assumption|]. split; reflexivity.
Qed.

(** [server] keeps its loop invariant and has no exit: [ensures false]. *)
Lemma server_safe (fuel : nat) (serverId key creator id : Z) :
  forall s : state,
    world s = mypub ->
    items s !! key = Some (key_item creator id) ->
    shared_with creator id = serverId ->
    wp safe (server fuel serverId key) (fun _ _ => False) s.
Proof.
  induction fuel as [|fuel IH]; intros s Hw Hk Hsw.
  - discriminate.
  - simpl server. apply wp_bind.
    apply (wp_mono _ _ _ _ _ (server_iteration_wp serverId key creator id s Hw Hk Hsw)).
    intros _ s' (req & resp & rest & more & _ & _ & _ & _ & _ & Hw' & Hk' & _).
    apply (IH s' Hw' Hk' Hsw).
Qed.

(** A well-formed request and a good answer: the iteration returns. *)
Lemma server_iteration_serves (serverId key creator id : Z) (s : state)
    (req resp : item) (rest more : list item) :
  world s = mypub ->
  items s !! key = Some (key_item creator id) ->
  wire s = request_message creator id req :: rest ->
  mypub (request_message creator id req) = true ->
  answers s = resp :: more ->
  mypub resp = true ->
  response creator (shared_with creator id) req resp = true ->
  wp (fun _ _ => False) (server_iteration serverId key)
     (fun _ s' => sent s' = sent s ++ [response_message creator id req resp]) s.
Proof.
  intros Hw Hk Hwire0 Hmsg Hans0 Hresp Hev.
  unfold server_iteration, request_message in *.
  wp_next. apply wp_net_receive.
  2:{ intros d rest' Hwire Hd. rewrite Hwire0 in Hwire.
      injection Hwire as <- <-. rewrite Hw in Hd. congruence. }
  2:{ congruence. }
  intros d rest' r Hwire Hd Hr. rewrite Hwire0 in Hwire.
  injection Hwire as <- <-. retarget_inner. after_alloc Hr.
  wp_pair wp_pair_get_first h pl E. injection E as <- <-.
  wp_pair wp_pair_get_second h' pl' E. injection E as <- <-.
  wp_free.
  wp_verify E. clear E.
  wp_free.
  wp_pair wp_pair_get_first t rr E. injection E as <- <-.
  wp_data tv E. injection E as <-.
  wp_next. simpl negb. cbv iota. apply wp_ret.
  wp_free.
  wp_pair wp_pair_get_second t' rr' E. injection E as <- <-.
  wp_free.
  simpl in Hmsg. apply andb_true_iff in Hmsg as [Hh Hpl].
  wp_next. eapply wp_compute_response;
    [eassumption | eassumption | ne_solver | exact Hh | | |].
  2:{ intros resp' more' Hans Hno. change (answers s = resp' :: more') in Hans.
      rewrite Hans0 in Hans. injection Hans as <- <-.
      rewrite Hresp, Hev in Hno. discriminate. }
  2:{ intros Hans. change (answers s = []) in Hans. congruence. }
  intros resp' more' answer Hans _ _ Hanswer.
  change (answers s = resp' :: more') in Hans.
  rewrite Hans0 in Hans. injection Hans as <- <-.
  retarget_inner. after_alloc Hanswer.
  wp_alloc wp_create_pair.
  wp_free. wp_free.
  wp_alloc wp_create_data_item.
  wp_alloc wp_create_pair.
  wp_free. wp_free.
  wp_alloc wp_hmacsha1.
  wp_alloc wp_create_pair.
  wp_free. wp_free.
  wp_next. eapply wp_net_send; [eassumption| intros _; cbv beta |].
  2:{ intros Hno. world_in s Hw Hno. simpl in Hno.
      rewrite Hev, Hpl, Hresp, !orb_true_r in Hno. discriminate. }
  retarget. wp_free.
  reflexivity.
Qed.

(** A verified message whose tag is not data_item(0): the iteration
    aborts, at [item_get_data] or at the [abort()] that follows it, and
    nothing is sent. *)
Lemma server_iteration_aborts (serverId key creator id : Z) (s : state)
    (t rq : item) (rest : list item) :
  world s = mypub ->
  items s !! key = Some (key_item creator id) ->
  wire s = pair_item (hmacsha1_item creator id (pair_item t rq)) (pair_item t rq)
           :: rest ->
  mypub (pair_item (hmacsha1_item creator id (pair_item t rq)) (pair_item t rq))
    = true ->
  t <> data_item 0 ->
  wp (fun why s' => (why = AbortCall \/ why = TagMismatch) /\ sent s' = sent s)
     (server_iteration serverId key) (fun _ _ => False) s.
Proof.
  intros Hw Hk Hwire0 Hmsg Ht. unfold server_iteration.
  wp_next. apply wp_net_receive.
  2:{ intros d rest' Hwire Hd. rewrite Hwire0 in Hwire.
      injection Hwire as <- <-. rewrite Hw in Hd. congruence. }
  2:{ congruence. }
  intros d rest' r Hwire Hd Hr. rewrite Hwire0 in Hwire.
  injection Hwire as <- <-. retarget_inner. after_alloc Hr.
  wp_pair wp_pair_get_first h pl E. injection E as <- <-.
  wp_pair wp_pair_get_second h' pl' E. injection E as <- <-.
  wp_free.
  wp_verify E. clear E.
  wp_free.
  wp_pair wp_pair_get_first t' rr E. injection E as <- <-.
  wp_next. eapply wp_item_get_data; [eassumption| |].
  2:{ intros _. split; [right; reflexivity|reflexivity]. }
  intros tv ->. cbv beta.
  wp_next. destruct (Z.eqb_spec tv 0) as [->|Htv]; [congruence|].
  simpl negb. cbv iota. apply wp_abort.
  split; [left; reflexivity|reflexivity].
Qed.

(** C4. One iteration of [server(serverId, key)], with key(key, creator, id)
    and shared_with(creator, id) == serverId.  It violates no contract.  When
    it returns, it has received pair_item(hash, pair_item(data_item(0),
    request)) with hash the keyed hash of the payload under the key, the
    application has answered resp with response(creator, shared_with(creator,
    id), request, resp), and it has sent exactly pair_item(hash2, p) for p ==
    pair_item(data_item(1), pair_item(request, resp)) and hash2 the keyed
    hash of p, which satisfies mypub.  It does return on such a request and
    such an answer; and when the verified payload has a tag other than
    data_item(0) it aborts and sends nothing. *)
Theorem server_iteration_behaviour (serverId key creator id : Z) (s : state) :
  world s = mypub ->
  items s !! key = Some (key_item creator id) ->
  shared_with creator id = serverId ->
  (forall s', server_iteration serverId key s <> Stop ContractViolation s') /\
  (forall s',
     server_iteration serverId key s = Ret tt s' ->
     exists req resp rest more,
       wire s = request_message creator id req :: rest /\
       answers s = resp :: more /\
       response creator (shared_with creator id) req resp = true /\
       sent s' = sent s ++ [response_message creator id req resp] /\
       mypub (response_message creator id req resp) = true /\
       world s' = mypub /\
       items s' !! key = Some (key_item creator id)) /\
  (forall req resp rest more,
     wire s = request_message creator id req :: rest ->
     mypub (request_message creator id req) = true ->
     answers s = resp :: more ->
     mypub resp = true ->
     response creator (shared_with creator id) req resp = true ->
     exists s',
       server_iteration serverId key s = Ret tt s' /\
       sent s' = sent s ++ [response_message creator id req resp]) /\
  (forall t rq rest,
     wire s = pair_item (hmacsha1_item creator id (pair_item t rq))
                (pair_item t rq) :: rest ->
     mypub (pair_item (hmacsha1_item creator id (pair_item t rq))
              (pair_item t rq)) = true ->
     t <> data_item 0 ->
     exists why s',
       server_iteration serverId key s = Stop why s' /\
       (why = AbortCall \/ why = TagMismatch) /\ sent s' = sent s).
Proof.
  intros Hw Hk Hsw.
  pose proof (server_iteration_wp serverId key creator id s Hw Hk Hsw) as Hsafe.
  split; [|split; [|split]].
  - intros s' Hrun. apply (wp_stops _ _ _ _ _ _ Hsafe Hrun). reflexivity.
  - intros s' Hrun.
    destruct (wp_returns _ _ _ _ _ _ Hsafe Hrun)
      as (req & resp & rest & more & H1 & H2 & H3 & H4 & H5 & H6 & H7 & _).
    exists req, resp, rest, more. repeat split; assumption.
  - intros req resp rest more Hwire Hmsg Hans Hresp Hev.
    pose proof (server_iteration_serves serverId key creator id s req resp rest
                  more Hw Hk Hwire Hmsg Hans Hresp Hev) as Hwp.
    unfold wp in Hwp.
    destruct (server_iteration serverId key s) as [[] s'|why s']; [|destruct Hwp].
    exists s'. split; [reflexivity|exact Hwp].
  - intros t rq rest Hwire Hmsg Ht.
    pose proof (server_iteration_aborts serverId key creator id s t rq rest
                  Hw Hk Hwire Hmsg Ht) as Hwp.
    unfold wp in Hwp.
    destruct (server_iteration serverId key s) as [[] s'|why s']; [destruct Hwp|].
    exists why, s'. split; [reflexivity|exact Hwp].
Qed.


(** ** Which items a run leaves behind

    Besides the live chunks, the proofs below keep the whole map of item
    chunks in normal form: the map at the start of the run with the live
    temporaries inserted. *)

Lemma shape_after_alloc s p v (m : gmap Z item) :
  items s = m -> items (set_items (insert p v) s) = <[p:=v]> m.
Proof. intros <-. reflexivity. Qed.

Lemma shape_after_free s p (m : gmap Z item) :
  items s = m -> items (set_items (delete p) s) = delete p m.
Proof. intros <-. reflexivity. Qed.

Lemma shape_log_sent d s (m : gmap Z item) :
  items s = m -> items (log_sent d s) = m.
Proof. intros <-. reflexivity. Qed.

Lemma shape_set_wire l s (m : gmap Z item) :
  items s = m -> items (set_wire l s) = m.
Proof. intros <-. reflexivity. Qed.

Lemma shape_set_answers l s (m : gmap Z item) :
  items s = m -> items (set_answers l s) = m.
Proof. intros <-. reflexivity. Qed.

Lemma shape_set_choices l s (m : gmap Z item) :
  items s = m -> items (set_choices l s) = m.
Proof. intros <-. reflexivity. Qed.

Lemma shape_set_principal_chunks l s (m : gmap Z item) :
  items s = m -> items (set_principal_chunks l s) = m.
Proof. intros <-. reflexivity. Qed.

(* the shape follows a step that leaves the item chunks alone *)
Ltac shape_to s' :=
  lazymatch s' with
  | log_sent ?d ?s =>
      lazymatch goal with Hs : items s = _ |- _ => apply (shape_log_sent d s) in Hs end
  | set_wire ?l ?s =>
      lazymatch goal with Hs : items s = _ |- _ => apply (shape_set_wire l s) in Hs end
  | set_answers ?l ?s =>
      lazymatch goal with Hs : items s = _ |- _ => apply (shape_set_answers l s) in Hs end
  | set_choices ?l ?s =>
      lazymatch goal with Hs : items s = _ |- _ => apply (shape_set_choices l s) in Hs end
  | set_principal_chunks ?l ?s =>
      lazymatch goal with
      | Hs : items s = _ |- _ => apply (shape_set_principal_chunks l s) in Hs
      end
  end.

Ltac track_same :=
  lazymatch goal with |- wp _ _ _ ?s' => retarget_to s'; shape_to s' end.

Ltac track_inner :=
  lazymatch goal with
  | |- wp _ _ _ (set_items _ ?s') => retarget_to s'; shape_to s'
  end.

(* after an allocation: the new address holds nothing in the first map *)
Ltac track_alloc Hp :=
  lazymatch type of Hp with
  | items ?s !! ?p = None =>
      lazymatch goal with
      | |- wp _ _ _ (set_items (insert p ?v) s) =>
          let Hb := fresh "Hbase" in
          pose proof Hp as Hb;
          after_alloc Hp;
          lazymatch goal with
          | Hs : items s = _ |- _ =>
              try rewrite Hs in Hb;
              rewrite ?lookup_insert_ne in Hb by ne_solver;
              apply (shape_after_alloc s p v) in Hs
          end
      end
  end.

Ltac track_free :=
  wp_next;
  lazymatch goal with
  | |- wp _ (item_free ?p) _ ?s =>
      eapply wp_item_free; [eassumption|]; cbv beta; after_free p s;
      lazymatch goal with
      | Hs : items s = _ |- _ =>
          apply (shape_after_free s p) in Hs;
          rewrite ?delete_insert_ne in Hs by ne_solver;
          rewrite delete_insert_eq in Hs;
          rewrite ?delete_insert_ne in Hs by ne_solver;
          rewrite delete_id in Hs by assumption
      end
  end.

Ltac track_pair lem f sv E :=
  wp_next; eapply lem; [eassumption| |];
  [ let r := fresh "r" in let Hr := fresh "Hr" in
    intros f sv r E Hr; track_alloc Hr | .. ].

(* the message at hand is not the response to the request *)
Ltac not_response :=
  let resp := fresh "resp" in
  let Heq := fresh "Heq" in
  intros resp Heq; unfold response_message in Heq; simplify_eq;
  first [ congruence
        | match goal with
          | H : forall _, _ <> _ |- _ => eapply H; reflexivity
          | H : forall _ _, _ <> _ |- _ => eapply H; reflexivity
          | H : item_eqb ?i ?i = false |- _ =>
              rewrite item_eqb_refl in H; discriminate
          end ].

Ltac track_new lem :=
  wp_next; eapply lem; [try eassumption; try ne_solver ..|];
  let p := fresh "p" in let Hp := fresh "Hp" in
  intros p Hp; track_alloc Hp.

Lemma client_run (server key rq creator id : Z) (req : item) (s : state) :
  items s !! key = Some (key_item creator id) ->
  items s !! rq = Some req -> key <> rq ->
  world s (request_message creator id req) = true ->
  wp (fun why s' =>
        sent s' = sent s ++ [request_message creator id req] /\
        match why with
        | ContractViolation => False
        | Exhausted => wire s = []
        | Assumed => exists d rest, wire s = d :: rest /\ world s d = false
        | TagMismatch | HashMismatch | AbortCall =>
            exists d rest,
              wire s = d :: rest /\ world s d = true /\
              forall resp, d <> response_message creator id req resp
        end)
     (client server key rq)
     (fun result s' =>
        exists resp rest,
          wire s = response_message creator id req resp :: rest /\
          world s (response_message creator id req resp) = true /\
          items s !! result = None /\
          items s' = <[result:=resp]> (items s) /\
          sent s' = sent s ++ [request_message creator id req] /\
          wire s' = rest /\ world s' = world s /\
          principal_chunks s' = principal_chunks s /\
          principals s' = principals s /\
          choices s' = choices s /\ answers s' = answers s)
     s.
Proof.
  intros Hk Hr Hne Hsend. unfold client.
  assert (Hs : items s = items s) by reflexivity.
  track_new wp_create_data_item.
  track_new wp_create_pair.
  track_free.
  track_new wp_hmacsha1.
  track_new wp_create_pair.
  track_free. track_free.
  wp_next. eapply wp_net_send; [eassumption| intros _; cbv beta |].
  2:{ intros Hno. change (world s (request_message creator id req) = false) in Hno.
      congruence. }
  track_same. track_free.
  wp_next. apply wp_net_receive.
  2:{ intros d rest Hwire Hd. split; [reflexivity|].
      exists d, rest. split; [exact Hwire|exact Hd]. }
  2:{ intros Hwire. split; [reflexivity|exact Hwire]. }
  intros d rest r Hwire Hd Hfresh.
  change (wire s = d :: rest) in Hwire. change (world s d = true) in Hd.
  track_inner. track_alloc Hfresh.
  assert (Hreject : (forall resp, d <> response_message creator id req resp) ->
                    exists d' rest',
                      wire s = d' :: rest' /\ world s d' = true /\
                      forall resp, d' <> response_message creator id req resp).
  { intros Hd'. exists d, rest. split; [exact Hwire|]. split; [exact Hd|exact Hd']. }
  track_pair wp_pair_get_first h pl E.
  2:{ intros Hnp. split; [reflexivity|]. apply Hreject. not_response. }
  subst d.
  track_pair wp_pair_get_second h' pl' E; [|off_path]. injection E as <- <-.
  track_free.
  wp_next. eapply wp_hmacsha1_verify;
    [eassumption | eassumption | eassumption
    | ne_solver | ne_solver | ne_solver | intros E; cbv beta |].
  2:{ intros Hh. split; [reflexivity|]. apply Hreject. not_response. }
  subst h.
  track_free.
  track_pair wp_pair_get_first t rr E.
  2:{ intros Hnp. split; [reflexivity|]. apply Hreject. not_response. }
  subst pl.
  wp_next. eapply wp_item_get_data; [eassumption| |].
  2:{ intros Hnd. split; [reflexivity|]. apply Hreject. not_response. }
  intros tv ->. cbv beta.
  wp_next. destruct (Z.eqb_spec tv 1) as [->|Htv]; simpl negb; cbv iota.
  2:{ apply wp_abort. split; [reflexivity|]. apply Hreject. not_response. }
  apply wp_ret.
  track_free.
  track_pair wp_pair_get_second t' rr' E; [|off_path]. injection E as <- <-.
  track_free.
  track_pair wp_pair_get_first rq1 resp E.
  2:{ intros Hnp. split; [reflexivity|]. apply Hreject. not_response. }
  subst rr.
  track_pair wp_pair_get_second rq1' resp' E; [|off_path]. injection E as <- <-.
  track_free.
  wp_next. eapply wp_item_equals; [eassumption | eassumption | ne_solver |].
  cbv beta.
  wp_next. destruct (item_eqb req rq1) eqn:Eeq; simpl negb; cbv iota.
  2:{ apply wp_abort. split; [reflexivity|]. apply Hreject. not_response. }
  apply wp_ret.
  apply item_eqb_eq in Eeq. subst rq1.
  track_free.
  apply wp_ret.
  exists resp, rest.
  split; [exact Hwire|]. split; [exact Hd|]. split; [assumption|].
  split; [exact Hs|].
  split; [reflexivity|]. split; [reflexivity|]. split; [reflexivity|].
  split; [reflexivity|]. split; [reflexivity|]. split; reflexivity.
Qed.

(** X1. What a returning call of [client] leaves behind: it received the
    response message for its request, the only new item is the result (at an
    address that held nothing), every temporary item was freed, exactly the
    request message was sent, one message was taken from the world, and
    nothing else changed.  No contract is violated on the way. *)
Theorem client_returns_frame (server key rq creator id : Z) (req : item)
    (s : state) :
  items s !! key = Some (key_item creator id) ->
  items s !! rq = Some req -> key <> rq ->
  world s (request_message creator id req) = true ->
  (forall s', client server key rq s <> Stop ContractViolation s') /\
  (forall result s',
     client server key rq s = Ret result s' ->
     exists resp rest,
       wire s = response_message creator id req resp :: rest /\
       items s !! result = None /\
       items s' = <[result:=resp]> (items s) /\
       sent s' = sent s ++ [request_message creator id req] /\
       wire s' = rest /\ world s' = world s /\
       principal_chunks s' = principal_chunks s /\
       principals s' = principals s /\
       choices s' = choices s /\ answers s' = answers s).
Proof.
  intros Hk Hr Hne Hsend.
  pose proof (client_run server key rq creator id req s Hk Hr Hne Hsend) as Hrun.
  split.
  - intros s' Hstop. destruct (wp_stops _ _ _ _ _ _ Hrun Hstop) as [_ []].
  - intros result s' Hret.
    destruct (wp_returns _ _ _ _ _ _ Hrun Hret)
      as (resp & rest & H1 & _ & H3 & H4 & H5 & H6 & H7 & H8 & H9 & H10 & H11).
    exists resp, rest. repeat split; assumption.
Qed.

(** X2. [client] accepts the genuine response: when the next message of the
    world is the response message for its request, hashed with its key, the
    call returns an item that represents the response. *)
Theorem client_accepts_response (server key rq creator id : Z) (req resp : item)
    (rest : list item) (s : state) :
  items s !! key = Some (key_item creator id) ->
  items s !! rq = Some req -> key <> rq ->
  world s (request_message creator id req) = true ->
  wire s = response_message creator id req resp :: rest ->
  world s (response_message creator id req resp) = true ->
  exists result s',
    client server key rq s = Ret result s' /\
    items s' !! result = Some resp /\
    items s' !! key = Some (key_item creator id) /\
    items s' !! rq = Some req.
Proof.
  intros Hk Hr Hne Hsend Hwire Hpub.
  pose proof (client_run server key rq creator id req s Hk Hr Hne Hsend) as Hrun.
  unfold wp in Hrun.
  destruct (client server key rq s) as [result s'|why s'].
  - destruct Hrun as (resp' & rest' & H1 & _ & H3 & H4 & _).
    rewrite Hwire in H1. injection H1 as -> _.
    exists result, s'. split; [reflexivity|]. rewrite H4.
    split; [apply lookup_insert_eq|].
    split; (rewrite lookup_insert_ne; [assumption|congruence]).
  - destruct Hrun as [_ Hwhy]. exfalso.
    destruct why; try (destruct Hwhy as (d & rest' & Hd & Hp & Hno);
                       rewrite Hwire in Hd; injection Hd as <- <-;
                       apply (Hno resp); reflexivity).
    + destruct Hwhy.
    + destruct Hwhy as (d & rest' & Hd & Hp).
      rewrite Hwire in Hd. injection Hd as <- <-. congruence.
    + congruence.
Qed.

(** X3. [client] rejects everything else: when the next message of the world
    is not the response message for its request (a response to another
    request, its own request sent back, a message hashed with another key,
    an item of another form), the call aborts, at a wrapper or at an
    [abort()], having sent its request and nothing more. *)
Theorem client_rejects_other_messages (server key rq creator id : Z) (req d : item)
    (rest : list item) (s : state) :
  items s !! key = Some (key_item creator id) ->
  items s !! rq = Some req -> key <> rq ->
  world s (request_message creator id req) = true ->
  wire s = d :: rest ->
  world s d = true ->
  (forall resp, d <> response_message creator id req resp) ->
  exists why s',
    client server key rq s = Stop why s' /\
    (why = TagMismatch \/ why = HashMismatch \/ why = AbortCall) /\
    sent s' = sent s ++ [request_message creator id req].
Proof.
  intros Hk Hr Hne Hsend Hwire Hpub Hother.
  pose proof (client_run server key rq creator id req s Hk Hr Hne Hsend) as Hrun.
  unfold wp in Hrun.
  destruct (client server key rq s) as [result s'|why s'].
  - destruct Hrun as (resp' & rest' & H1 & _).
    rewrite Hwire in H1. injection H1 as -> _. destruct (Hother resp' eq_refl).
  - destruct Hrun as [Hsent Hwhy]. exists why, s'.
    split; [reflexivity|]. split; [|exact Hsent].
    destruct why; auto.
    + destruct Hwhy.
    + destruct Hwhy as (d' & rest' & Hd & Hp).
      rewrite Hwire in Hd. injection Hd as <- <-. congruence.
    + congruence.
Qed.


(* the message at hand is not a request *)
Ltac not_request :=
  let req := fresh "req" in
  let Heq := fresh "Heq" in
  intros req Heq; unfold request_message in Heq; simplify_eq;
  first [ congruence
        | match goal with
          | H : forall _, _ <> _ |- _ => eapply H; reflexivity
          | H : forall _ _, _ <> _ |- _ => eapply H; reflexivity
          end ].

Lemma server_iteration_run (serverId key creator id : Z) (s : state) :
  world s = mypub ->
  items s !! key = Some (key_item creator id) ->
  wp (fun why s' =>
        sent s' = sent s /\
        match why with
        | ContractViolation => False
        | Exhausted =>
            wire s = [] \/
            (exists req rest,
               wire s = request_message creator id req :: rest /\
               answers s = [])
        | Assumed =>
            (exists d rest, wire s = d :: rest /\ mypub d = false) \/
            (exists req rest resp more,
               wire s = request_message creator id req :: rest /\
               answers s = resp :: more /\
               mypub resp
               && response creator (shared_with creator id) req resp = false)
        | TagMismatch | HashMismatch | AbortCall =>
            exists d rest,
              wire s = d :: rest /\ mypub d = true /\
              forall req, d <> request_message creator id req
        end)
     (server_iteration serverId key)
     (fun _ s' =>
        exists req resp rest more,
          wire s = request_message creator id req :: rest /\
          answers s = resp :: more /\
          (bad creator || bad (shared_with creator id)
           || request creator (shared_with creator id) req = true) /\
          mypub resp = true /\
          response creator (shared_with creator id) req resp = true /\
          items s' = items s /\
          sent s' = sent s ++ [response_message creator id req resp] /\
          wire s' = rest /\ answers s' = more /\ world s' = world s /\
          principal_chunks s' = principal_chunks s /\
          principals s' = principals s /\ choices s' = choices s)
     s.
Proof.
  intros Hw Hk. unfold server_iteration.
  assert (Hs : items s = items s) by reflexivity.
  wp_next. apply wp_net_receive.
  2:{ intros d rest Hwire Hd. split; [reflexivity|]. left.
      exists d, rest. split; [exact Hwire|]. rewrite Hw in Hd. exact Hd. }
  2:{ intros Hwire. split; [reflexivity|]. left. exact Hwire. }
  intros d rest r Hwire Hd Hfresh. rewrite Hw in Hd.
  track_inner. track_alloc Hfresh.
  assert (Hreject : (forall req, d <> request_message creator id req) ->
                    exists d' rest',
                      wire s = d' :: rest' /\ mypub d' = true /\
                      forall req, d' <> request_message creator id req).
  { intros Hd'. exists d, rest. split; [exact Hwire|]. split; [exact Hd|exact Hd']. }
  track_pair wp_pair_get_first h pl E.
  2:{ intros Hnp. split; [reflexivity|]. apply Hreject. not_request. }
  subst d.
  track_pair wp_pair_get_second h' pl' E; [|off_path]. injection E as <- <-.
  track_free.
  wp_next. eapply wp_hmacsha1_verify;
    [eassumption | eassumption | eassumption
    | ne_solver | ne_solver | ne_solver | intros E; cbv beta |].
  2:{ intros Hh. split; [reflexivity|]. apply Hreject. not_request. }
  subst h.
  track_free.
  track_pair wp_pair_get_first t rr E.
  2:{ intros Hnp. split; [reflexivity|]. apply Hreject. not_request. }
  subst pl.
  wp_next. eapply wp_item_get_data; [eassumption| |].
  2:{ intros Hnd. split; [reflexivity|]. apply Hreject. not_request. }
  intros tv ->. cbv beta.
  wp_next. destruct (Z.eqb_spec tv 0) as [->|Htv]; simpl negb; cbv iota.
  2:{ apply wp_abort. split; [reflexivity|]. apply Hreject. not_request. }
  apply wp_ret.
  track_free.
  track_pair wp_pair_get_second t' rr' E; [|off_path]. injection E as <- <-.
  track_free.
  pose proof Hd as Hmsg. simpl in Hmsg.
  apply andb_true_iff in Hmsg as [Hh Hpl].
  wp_next. eapply wp_compute_response;
    [eassumption | eassumption | ne_solver | exact Hh | | |].
  2:{ intros resp more Hans Hno. split; [reflexivity|]. right.
      exists rr, rest, resp, more.
      split; [exact Hwire|]. split; [exact Hans|exact Hno]. }
  2:{ intros Hans. split; [reflexivity|]. right.
      exists rr, rest. split; [exact Hwire|exact Hans]. }
  intros resp more answer Hans Hresp Hev Hanswer.
  change (answers s = resp :: more) in Hans.
  track_inner. track_alloc Hanswer.
  track_new wp_create_pair.
  track_free. track_free.
  track_new wp_create_data_item.
  track_new wp_create_pair.
  track_free. track_free.
  track_new wp_hmacsha1.
  track_new wp_create_pair.
  track_free. track_free.
  wp_next. eapply wp_net_send; [eassumption| intros _; cbv beta |].
  2:{ intros Hno. world_in s Hw Hno. simpl in Hno.
      rewrite Hev, Hpl, Hresp, !orb_true_r in Hno. discriminate. }
  track_same. track_free.
  exists rr, resp, rest, more.
  split; [exact Hwire|]. split; [exact Hans|]. split; [exact Hh|].
  split; [exact Hresp|]. split; [exact Hev|]. split; [exact Hs|].
  split; [reflexivity|]. split; [reflexivity|]. split; [reflexivity|].
  split; [reflexivity|]. split; [reflexivity|]. split; reflexivity.
Qed.


(** X4. Integrity on the server side: in an iteration of [server] that
    returns, the request handed to the application was made by the client,
    request(creator, shared_with(creator, id), req), unless the creator of
    the key or the principal it is shared with is bad; and the response
    sent is the application's answer to that request. *)
Theorem server_answers_genuine_requests (serverId key creator id : Z)
    (s s' : state) :
  world s = mypub ->
  items s !! key = Some (key_item creator id) ->
  server_iteration serverId key s = Ret tt s' ->
  exists req resp rest more,
    wire s = request_message creator id req :: rest /\
    answers s = resp :: more /\
    (bad creator || bad (shared_with creator id)
     || request creator (shared_with creator id) req = true) /\
    sent s' = sent s ++ [response_message creator id req resp].
Proof.
  intros Hw Hk Hret.
  destruct (wp_returns _ _ _ _ _ _
              (server_iteration_run serverId key creator id s Hw Hk) Hret)
    as (req & resp & rest & more & H1 & H2 & H3 & _ & _ & _ & H7 & _).
  exists req, resp, rest, more. repeat split; assumption.
Qed.

(** X5. What an iteration of [server] leaves behind: every item it received
    or built was freed, so the item chunks are those it started with; one
    message was taken from the world and one answer from the application;
    nothing else changed. *)
Theorem server_iteration_frame (serverId key creator id : Z) (s s' : state) :
  world s = mypub ->
  items s !! key = Some (key_item creator id) ->
  server_iteration serverId key s = Ret tt s' ->
  items s' = items s /\
  wire s' = tail (wire s) /\ answers s' = tail (answers s) /\
  world s' = world s /\
  principal_chunks s' = principal_chunks s /\
  principals s' = principals s /\ choices s' = choices s.
Proof.
  intros Hw Hk Hret.
  destruct (wp_returns _ _ _ _ _ _
              (server_iteration_run serverId key creator id s Hw Hk) Hret)
    as (req & resp & rest & more & H1 & H2 & _ & _ & _ & H6 & _ & H8 & H9
        & H10 & H11 & H12 & H13).
  rewrite H1, H2. repeat split; assumption.
Qed.

(** X6. [server] rejects what is not a request under its key: when the next
    message of the world is public but is not the request message, with tag
    0, hashed with the server's key (a response message, a message hashed
    with another key, an item of another form), the iteration aborts and
    sends nothing. *)
Theorem server_rejects_other_messages (serverId key creator id : Z) (d : item)
    (rest : list item) (s : state) :
  world s = mypub ->
  items s !! key = Some (key_item creator id) ->
  wire s = d :: rest ->
  mypub d = true ->
  (forall req, d <> request_message creator id req) ->
  exists why s',
    server_iteration serverId key s = Stop why s' /\
    (why = TagMismatch \/ why = HashMismatch \/ why = AbortCall) /\
    sent s' = sent s.
Proof.
  intros Hw Hk Hwire Hpub Hother.
  pose proof (server_iteration_run serverId key creator id s Hw Hk) as Hrun.
  unfold wp in Hrun.
  destruct (server_iteration serverId key s) as [[] s'|why s'].
  - destruct Hrun as (req & resp' & rest' & more & H1 & _).
    rewrite Hwire in H1. injection H1 as -> _. destruct (Hother req eq_refl).
  - destruct Hrun as [Hsent Hwhy]. exists why, s'.
    split; [reflexivity|]. split; [|exact Hsent].
    destruct why; auto.
    + destruct Hwhy.
    + destruct Hwhy as [(d' & rest' & Hd & Hp)|(req & rest' & _ & _ & Hd & _)].
      * rewrite Hwire in Hd. injection Hd as <- <-. congruence.
      * rewrite Hwire in Hd. injection Hd as -> _. destruct (Hother req eq_refl).
    + destruct Hwhy as [Hnil|(req & rest' & Hd & _)]; [congruence|].
      rewrite Hwire in Hd. injection Hd as -> _. destruct (Hother req eq_refl).
Qed.


Lemma server_iteration_step (serverId key creator id : Z) (s : state)
    (req resp : item) (rest more : list item) :
  world s = mypub ->
  items s !! key = Some (key_item creator id) ->
  wire s = request_message creator id req :: rest ->
  mypub (request_message creator id req) = true ->
  answers s = resp :: more ->
  mypub resp = true ->
  response creator (shared_with creator id) req resp = true ->
  exists s',
    server_iteration serverId key s = Ret tt s' /\
    items s' = items s /\
    sent s' = sent s ++ [response_message creator id req resp] /\
    wire s' = rest /\ answers s' = more /\ world s' = world s.
Proof.
  intros Hw Hk Hwire Hmsg Hans Hresp Hev.
  pose proof (server_iteration_run serverId key creator id s Hw Hk) as Hrun.
  unfold wp in Hrun.
  destruct (server_iteration serverId key s) as [[] s'|why s'].
  - destruct Hrun as (req' & resp' & rest' & more' & H1 & H2 & _ & _ & _ & H6
                      & H7 & H8 & H9 & H10 & _).
    rewrite Hwire in H1. rewrite Hans in H2.
    unfold request_message in H1. simplify_eq.
    exists s'. repeat split; assumption.
  - destruct Hrun as [_ Hwhy]. exfalso.
    destruct why;
      try (destruct Hwhy as (d & rest' & Hd & _ & Hno);
           rewrite Hwire in Hd; injection Hd as Hd _;
           symmetry in Hd; apply (Hno req Hd)).
    + destruct Hwhy.
    + destruct Hwhy as [(d & rest' & Hd & Hp)
                       |(req' & rest' & resp' & more' & Hd & Ha & Hno)].
      * rewrite Hwire in Hd. injection Hd as <- <-. congruence.
      * rewrite Hwire in Hd. rewrite Hans in Ha.
        unfold request_message in Hd. simplify_eq.
        rewrite Hresp, Hev in Hno. discriminate.
    + destruct Hwhy as [Hnil|(req' & rest' & _ & Hnil)]; congruence.
Qed.

(** X7. [server] answers requests in order, one response for each: offered
    [n] request messages under its key, with the application answering
    each, the first [n] iterations of the loop send exactly the [n]
    response messages, in the order of the requests, and free every item
    they used. *)
Theorem server_serves_in_order (serverId key creator id : Z)
    (reqs resps : list item) :
  Forall2 (fun req resp =>
             mypub (request_message creator id req) = true /\
             mypub resp = true /\
             response creator (shared_with creator id) req resp = true)
          reqs resps ->
  forall (s : state) (rest more : list item),
    world s = mypub ->
    items s !! key = Some (key_item creator id) ->
    wire s = map (request_message creator id) reqs ++ rest ->
    answers s = resps ++ more ->
    exists s',
      server (length reqs) serverId key s = Stop Exhausted s' /\
      sent s' = sent s ++ zip_with (response_message creator id) reqs resps /\
      items s' = items s /\ wire s' = rest /\ answers s' = more.
Proof.
  induction 1 as [|req resp reqs resps (Hmsg & Hresp & Hev) _ IH];
    intros s rest more Hw Hk Hwire Hans.
  - exists s. split; [reflexivity|].
    split; [symmetry; apply app_nil_r|].
    split; [reflexivity|]. split; [exact Hwire|exact Hans].
  - destruct (server_iteration_step serverId key creator id s req resp
                (map (request_message creator id) reqs ++ rest)
                (resps ++ more) Hw Hk Hwire Hmsg Hans Hresp Hev)
      as (s1 & Hrun & Hitems & Hsent & Hwire1 & Hans1 & Hw1).
    destruct (IH s1 rest more) as (s' & Hrun' & Hsent' & Hitems' & Hrest).
    + rewrite Hw1. exact Hw.
    + rewrite Hitems. exact Hk.
    + exact Hwire1.
    + exact Hans1.
    + exists s'. split.
      * simpl length. simpl server. rewrite bind_run, Hrun. exact Hrun'.
      * split; [|split; [congruence|exact Hrest]].
        rewrite Hsent', Hsent, <- app_assoc. reflexivity.
Qed.

(** X8. [server] has no normal exit and violates no contract: whatever the
    world offers and however many iterations run, the loop only ever stops
    by an abort, by a run that the contracts discard, or because the model
    has no further iteration to run. *)
Theorem server_never_returns (fuel : nat) (serverId key creator id : Z)
    (s : state) :
  world s = mypub ->
  items s !! key = Some (key_item creator id) ->
  shared_with creator id = serverId ->
  exists why s',
    server fuel serverId key s = Stop why s' /\ why <> ContractViolation.
Proof.
  intros Hw Hk Hsw.
  pose proof (server_safe fuel serverId key creator id s Hw Hk Hsw) as Hsafe.
  unfold wp in Hsafe.
  destruct (server fuel serverId key s) as [[] s'|why s']; [destruct Hsafe|].
  exists why, s'. split; [reflexivity|exact Hsafe].
Qed.


Lemma wp_must_return {A} (m : M A) (Q : A -> state -> Prop) s :
  wp (fun _ _ => False) m Q s -> exists a s', m s = Ret a s' /\ Q a s'.
Proof.
  unfold wp. destruct (m s) as [a s'|why s']; [|intros []].
  intros H. exists a, s'. split; [reflexivity|exact H].
Qed.

Lemma wp_must_stop {A} (m : M A) (E : stop -> state -> Prop) s :
  wp E m (fun _ _ => False) s -> exists why s', m s = Stop why s' /\ E why s'.
Proof.
  unfold wp. destruct (m s) as [a s'|why s']; [intros []|].
  intros H. exists why, s'. split; [reflexivity|exact H].
Qed.

(** X9. Action 1 of the attacker publishes an arbitrary data item: whatever
    integer [choose] returns, the data item of that value is sent and freed
    again. *)
Theorem attacker_publishes_data (s : state) (data : Z) (tape : list Z) :
  world s = mypub ->
  choices s = 1 :: data :: tape ->
  exists s',
    attacker_action s = Ret tt s' /\
    sent s' = sent s ++ [data_item data] /\
    items s' = items s /\ choices s' = tape /\ wire s' = wire s.
Proof.
  intros Hw Hc.
  destruct (wp_must_return attacker_action
              (fun _ s' => sent s' = sent s ++ [data_item data] /\
                           items s' = items s /\ choices s' = tape /\
                           wire s' = wire s) s) as ([] & s' & Hrun & Hpost).
  { unfold attacker_action.
    assert (Hs : items s = items s) by reflexivity.
    wp_next. eapply wp_choose; [exact Hc|]. cbv beta iota. track_same.
    wp_next. eapply wp_choose; [reflexivity|]. cbv beta. track_same.
    track_new wp_create_data_item.
    wp_next. eapply wp_net_send; [eassumption| intros _ |].
    2:{ intros Hno. world_in s Hw Hno. discriminate. }
    track_same. track_free.
    split; [reflexivity|]. split; [exact Hs|]. split; reflexivity. }
  exists s'. split; [exact Hrun|exact Hpost].
Qed.

(** X10. Action 2 of the attacker pairs what it receives: it takes two
    messages from the world and sends their pair, which is public when
    they are. *)
Theorem attacker_pairs_messages (s : state) (d1 d2 : item) (rest : list item)
    (tape : list Z) :
  world s = mypub ->
  choices s = 2 :: tape ->
  wire s = d1 :: d2 :: rest ->
  mypub d1 = true -> mypub d2 = true ->
  exists s',
    attacker_action s = Ret tt s' /\
    sent s' = sent s ++ [pair_item d1 d2] /\
    items s' = items s /\ wire s' = rest.
Proof.
  intros Hw Hc Hwire H1 H2.
  destruct (wp_must_return attacker_action
              (fun _ s' => sent s' = sent s ++ [pair_item d1 d2] /\
                           items s' = items s /\ wire s' = rest) s)
    as ([] & s' & Hrun & Hpost).
  { unfold attacker_action.
    assert (Hs : items s = items s) by reflexivity.
    wp_next. eapply wp_choose; [exact Hc|]. cbv beta iota. track_same.
    wp_next. apply wp_net_receive.
    2:{ intros d rest' Hwire' Hd. change (wire s = d :: rest') in Hwire'.
        world_in s Hw Hd. congruence. }
    2:{ intros Hwire'. change (wire s = []) in Hwire'. congruence. }
    intros d rest' r Hwire' Hd Hfresh. change (wire s = d :: rest') in Hwire'.
    rewrite Hwire in Hwire'. injection Hwire' as <- <-.
    track_inner. track_alloc Hfresh.
    wp_next. apply wp_net_receive.
    2:{ intros d rest' Hwire' Hd'. change (d2 :: rest = d :: rest') in Hwire'.
        injection Hwire' as <- <-. world_in s Hw Hd'. congruence. }
    2:{ intros Hwire'. change (d2 :: rest = []) in Hwire'. discriminate. }
    intros d rest' r' Hwire' Hd' Hfresh.
    change (d2 :: rest = d :: rest') in Hwire'. injection Hwire' as <- <-.
    track_inner. track_alloc Hfresh.
    track_new wp_create_pair.
    track_free. track_free.
    wp_next. eapply wp_net_send; [eassumption| intros _ |].
    2:{ intros Hno. world_in s Hw Hno. simpl in Hno.
        rewrite H1, H2 in Hno. discriminate. }
    track_same. track_free.
    split; [reflexivity|]. split; [exact Hs|reflexivity]. }
  exists s'. split; [exact Hrun|exact Hpost].
Qed.


(** X11. Action 3 of the attacker hashes with a published key: given a
    public key item and a payload from the world it sends the keyed hash of
    the payload, and the key it can do that with belongs to a bad principal
    or is shared with one; given anything but a key in the key's place,
    [check_is_key] aborts the action and nothing is sent. *)
Theorem attacker_hashes_with_public_key (s : state) (k pl : item)
    (rest : list item) (tape : list Z) :
  world s = mypub ->
  choices s = 3 :: tape ->
  wire s = k :: pl :: rest ->
  mypub k = true -> mypub pl = true ->
  (forall creator id,
     k = key_item creator id ->
     bad creator || bad (shared_with creator id) = true /\
     exists s',
       attacker_action s = Ret tt s' /\
       sent s' = sent s ++ [hmacsha1_item creator id pl] /\
       items s' = items s /\ wire s' = rest) /\
  ((forall creator id, k <> key_item creator id) ->
   exists s', attacker_action s = Stop TagMismatch s' /\ sent s' = sent s).
Proof.
  intros Hw Hc Hwire Hk Hpl.
  assert (Hprefix :
    forall E Q,
      (forall key payload s1,
         items s1 !! key = Some k -> items s1 !! payload = Some pl ->
         key <> payload ->
         items s !! key = None -> items s !! payload = None ->
         items s1 = <[payload:=pl]> (<[key:=k]> (items s)) ->
         world s1 = world s -> sent s1 = sent s -> wire s1 = rest ->
         wp E (check_is_key key ≫= fun _ =>
               hmacsha1 key payload ≫= fun hash =>
               item_free key ≫= fun _ =>
               item_free payload ≫= fun _ =>
               net_send hash ≫= fun _ => item_free hash) Q s1) ->
      wp E attacker_action Q s).
  { intros E Q Hrest. unfold attacker_action.
    assert (Hs : items s = items s) by reflexivity.
    wp_next. eapply wp_choose; [exact Hc|]. cbv beta iota. track_same.
    wp_next. apply wp_net_receive.
    2:{ intros d rest' Hwire' Hd. change (wire s = d :: rest') in Hwire'.
        world_in s Hw Hd. congruence. }
    2:{ intros Hwire'. change (wire s = []) in Hwire'. congruence. }
    intros d rest' r Hwire' Hd Hfresh. change (wire s = d :: rest') in Hwire'.
    rewrite Hwire in Hwire'. injection Hwire' as <- <-.
    track_inner. track_alloc Hfresh.
    wp_next. apply wp_net_receive.
    2:{ intros d rest' Hwire' Hd'. change (pl :: rest = d :: rest') in Hwire'.
        injection Hwire' as <- <-. world_in s Hw Hd'. congruence. }
    2:{ intros Hwire'. change (pl :: rest = []) in Hwire'. discriminate. }
    intros d rest' r' Hwire' Hd' Hfresh.
    change (pl :: rest = d :: rest') in Hwire'. injection Hwire' as <- <-.
    track_inner. track_alloc Hfresh.
    apply Hrest; try assumption; try reflexivity. ne_solver. }
  split.
  - intros creator id ->. split; [exact Hk|].
    destruct (wp_must_return attacker_action
                (fun _ s' => sent s' = sent s ++ [hmacsha1_item creator id pl] /\
                             items s' = items s /\ wire s' = rest) s)
      as ([] & s' & Hrun & Hpost); [|exists s'; split; assumption].
    apply Hprefix. intros key payload s1 Hkey Hpayload Hne Hbk Hbp Hs Hw1 Hsent Hrest.
    wp_next. eapply wp_check_is_key; [eassumption| intros _ _ _; cbv beta |off_path].
    track_new wp_hmacsha1.
    track_free. track_free.
    wp_next. eapply wp_net_send; [eassumption| intros _ |].
    2:{ intros Hno. change (world s1 (hmacsha1_item creator id pl) = false) in Hno.
        rewrite Hw1, Hw in Hno. simpl in Hno, Hk. rewrite Hk in Hno.
        discriminate. }
    track_same. track_free.
    split; [|split].
    + change (sent s1 ++ [hmacsha1_item creator id pl]
              = sent s ++ [hmacsha1_item creator id pl]).
      rewrite Hsent. reflexivity.
    + exact Hs.
    + exact Hrest.
  - intros Hnokey.
    destruct (wp_must_stop attacker_action
                (fun why s' => why = TagMismatch /\ sent s' = sent s) s)
      as (why & s' & Hrun & -> & Hsent); [|exists s'; split; assumption].
    apply Hprefix. intros key payload s1 Hkey Hpayload Hne Hbk Hbp Hs Hw1 Hsent Hrest.
    wp_next. eapply wp_check_is_key; [eassumption| |].
    + intros creator id Heq. destruct (Hnokey creator id Heq).
    + intros _. split; [reflexivity|exact Hsent].
Qed.


(** X12. Action 4 of the attacker takes a pair apart: given a public pair
    from the world it sends the first component and then the second, each
    of which is public; given an item that is not a pair it aborts at
    [pair_get_first] and sends nothing. *)
Theorem attacker_decomposes_pairs (s : state) (d : item) (rest : list item)
    (tape : list Z) :
  world s = mypub ->
  choices s = 4 :: tape ->
  wire s = d :: rest ->
  mypub d = true ->
  (forall f sv,
     d = pair_item f sv ->
     mypub f = true /\ mypub sv = true /\
     exists s',
       attacker_action s = Ret tt s' /\
       sent s' = sent s ++ [f; sv] /\
       items s' = items s /\ wire s' = rest) /\
  ((forall f sv, d <> pair_item f sv) ->
   exists s', attacker_action s = Stop TagMismatch s' /\ sent s' = sent s).
Proof.
  intros Hw Hc Hwire Hd.
  assert (Hprefix :
    forall E Q,
      (forall pair s1,
         items s1 !! pair = Some d -> items s !! pair = None ->
         items s1 = <[pair:=d]> (items s) ->
         world s1 = world s -> sent s1 = sent s -> wire s1 = rest ->
         wp E (pair_get_first pair ≫= fun first =>
               pair_get_second pair ≫= fun second =>
               item_free pair ≫= fun _ =>
               net_send first ≫= fun _ =>
               item_free first ≫= fun _ =>
               net_send second ≫= fun _ => item_free second) Q s1) ->
      wp E attacker_action Q s).
  { intros E Q Hrest. unfold attacker_action.
    assert (Hs : items s = items s) by reflexivity.
    wp_next. eapply wp_choose; [exact Hc|]. cbv beta iota. track_same.
    wp_next. apply wp_net_receive.
    2:{ intros d' rest' Hwire' Hd'. change (wire s = d' :: rest') in Hwire'.
        world_in s Hw Hd'. congruence. }
    2:{ intros Hwire'. change (wire s = []) in Hwire'. congruence. }
    intros d' rest' r Hwire' Hd' Hfresh. change (wire s = d' :: rest') in Hwire'.
    rewrite Hwire in Hwire'. injection Hwire' as <- <-.
    track_inner. track_alloc Hfresh.
    apply Hrest; try assumption; reflexivity. }
  split.
  - intros f sv ->. simpl in Hd. apply andb_true_iff in Hd as [Hf Hsv].
    split; [exact Hf|]. split; [exact Hsv|].
    destruct (wp_must_return attacker_action
                (fun _ s' => sent s' = sent s ++ [f; sv] /\
                             items s' = items s /\ wire s' = rest) s)
      as ([] & s' & Hrun & Hpost); [|exists s'; split; assumption].
    apply Hprefix. intros pair s1 Hpair Hbp Hs Hw1 Hsent Hrest.
    track_pair wp_pair_get_first f' sv' E; [|off_path]. injection E as <- <-.
    track_pair wp_pair_get_second f' sv' E; [|off_path]. injection E as <- <-.
    track_free.
    wp_next. eapply wp_net_send; [eassumption| intros _ |].
    2:{ intros Hno. change (world s1 f = false) in Hno.
        rewrite Hw1, Hw in Hno. congruence. }
    track_same. track_free.
    wp_next. eapply wp_net_send; [eassumption| intros _ |].
    2:{ intros Hno. change (world s1 sv = false) in Hno.
        rewrite Hw1, Hw in Hno. congruence. }
    track_same. track_free.
    split; [|split].
    + change ((sent s1 ++ [f]) ++ [sv] = sent s ++ [f; sv]).
      rewrite Hsent, <- app_assoc. reflexivity.
    + exact Hs.
    + exact Hrest.
  - intros Hnopair.
    destruct (wp_must_stop attacker_action
                (fun why s' => why = TagMismatch /\ sent s' = sent s) s)
      as (why & s' & Hrun & -> & Hsent); [|exists s'; split; assumption].
    apply Hprefix. intros pair s1 Hpair Hbp Hs Hw1 Hsent Hrest.
    wp_next. eapply wp_pair_get_first; [eassumption| |].
    + intros f sv r Heq. destruct (Hnopair f sv Heq).
    + intros _. split; [reflexivity|exact Hsent].
Qed.

(** X13. The [switch] of the attacker has no default case: a choice other
    than 0 to 4 does nothing at all. *)
Theorem attacker_unknown_action (s : state) (action : Z) (tape : list Z) :
  choices s = action :: tape ->
  (action < 0 \/ 4 < action) ->
  attacker_action s = Ret tt (set_choices tape s).
Proof.
  intros Hc Hrange. unfold attacker_action.
  rewrite bind_run. unfold choose. rewrite Hc.
  destruct action as [|p|p]; [lia| |reflexivity].
  destruct p as [[q|q|]|[q|[q|q|]|]|]; try reflexivity; lia.
Qed.

(** X14. The actions of the attacker respect the contracts, action 0 given
    what its ghost [assume] supposes: in world(mypub), for any persona
    [me], whichever action is chosen and whatever the world offers, no
    [net_send] of the attacker is refused and no other precondition fails,
    provided that, when the action chosen is 0, bad(me) or
    bad(shared_with(me, keyCount)) holds for the key the persona generates;
    an action that returns leaves world(mypub) and the principal chunk of
    the same persona. *)
Theorem attacker_actions_respect_contracts (s : state) (me keyCount : Z)
    (rest : list (Z * Z)) :
  world s = mypub ->
  principal_chunks s = (me, keyCount) :: rest ->
  (forall tape, choices s = 0 :: tape ->
                bad me || bad (shared_with me keyCount) = true) ->
  (forall s', attacker_action s <> Stop ContractViolation s') /\
  (forall s',
     attacker_action s = Ret tt s' ->
     world s' = mypub /\
     exists keyCount', principal_chunks s' = (me, keyCount') :: rest).
Proof.
  intros Hw Hch Hbad.
  pose proof (attacker_action_safe s me keyCount rest Hw Hch Hbad) as Hsafe.
  split.
  - intros s' Hstop. apply (wp_stops _ _ _ _ _ _ Hsafe Hstop). reflexivity.
  - intros s' Hret. apply (wp_returns _ _ _ _ _ _ Hsafe Hret).
Qed.



Lemma client_run_accepts (server key rq creator id : Z) (req resp : item)
    (rest : list item) (s : state) :
  items s !! key = Some (key_item creator id) ->
  items s !! rq = Some req -> key <> rq ->
  world s (request_message creator id req) = true ->
  wire s = response_message creator id req resp :: rest ->
  world s (response_message creator id req resp) = true ->
  exists result s',
    client server key rq s = Ret result s' /\
    items s !! result = None /\
    items s' = <[result:=resp]> (items s) /\
    sent s' = sent s ++ [request_message creator id req].
Proof.
  intros Hk Hr Hne Hsend Hwire Hpub.
  pose proof (client_run server key rq creator id req s Hk Hr Hne Hsend) as Hrun.
  unfold wp in Hrun.
  destruct (client server key rq s) as [result s'|why s'].
  - destruct Hrun as (resp' & rest' & H1 & _ & H3 & H4 & H5 & _).
    rewrite Hwire in H1. injection H1 as -> _.
    exists result, s'. repeat split; assumption.
  - destruct Hrun as [_ Hwhy]. exfalso.
    destruct why; try (destruct Hwhy as (d & rest' & Hd & Hp & Hno);
                       rewrite Hwire in Hd; injection Hd as <- <-;
                       apply (Hno resp); reflexivity).
    + destruct Hwhy.
    + destruct Hwhy as (d & rest' & Hd & Hp).
      rewrite Hwire in Hd. injection Hd as <- <-. congruence.
    + congruence.
Qed.

(** X16. A keyed hash verifies against the key and the payload it was made
    from, and against nothing else: [hmacsha1_verify] returns on the hash
    that [hmacsha1] made with the same key and payload, and does not
    return when the payload differs or when the key is another key. *)
Theorem hmacsha1_verify_round_trip (s : state) (key payload creator id : Z)
    (p : item) :
  items s !! key = Some (key_item creator id) ->
  items s !! payload = Some p ->
  key <> payload ->
  exists hash s1,
    hmacsha1 key payload s = Ret hash s1 /\
    items s1 !! hash = Some (hmacsha1_item creator id p) /\
    hmacsha1_verify hash key payload s1 = Ret tt s1 /\
    (forall other q,
       items s1 !! other = Some q -> other <> hash -> other <> key -> q <> p ->
       hmacsha1_verify hash key other s1 = Stop HashMismatch s1) /\
    (forall key2 creator2 id2,
       items s1 !! key2 = Some (key_item creator2 id2) ->
       key2 <> hash -> key2 <> payload ->
       (creator2, id2) <> (creator, id) ->
       hmacsha1_verify hash key2 payload s1 = Stop HashMismatch s1).
Proof.
  intros Hk Hp Hne.
  rewrite (hmacsha1_run _ _ _ _ _ _ Hk Hp Hne). unfold alloc_item.
  pose proof (fresh_ptr_None (items s)) as Hfresh.
  set (hash := fresh_ptr (items s)) in *.
  set (s1 := set_items (insert hash (hmacsha1_item creator id p)) s).
  assert (Hh : items s1 !! hash = Some (hmacsha1_item creator id p))
    by apply live_new.
  assert (Hk1 : items s1 !! key = Some (key_item creator id))
    by (apply live_alloc; assumption).
  assert (Hp1 : items s1 !! payload = Some p)
    by (apply live_alloc; assumption).
  assert (Hhk : hash <> key) by (apply (fresh_differs s _ _ _ Hfresh Hk)).
  assert (Hhp : hash <> payload) by (apply (fresh_differs s _ _ _ Hfresh Hp)).
  exists hash, s1. split; [reflexivity|]. split; [exact Hh|]. split; [|split].
  - rewrite (hmacsha1_verify_run _ _ _ _ _ _ _ _ Hh Hk1 Hp1 Hhk Hhp Hne).
    rewrite item_eqb_refl. reflexivity.
  - intros other q Ho Hoh Hok Hq.
    rewrite (hmacsha1_verify_run _ _ _ _ _ _ _ _ Hh Hk1 Ho Hhk
               (not_eq_sym Hoh) (not_eq_sym Hok)).
    destruct (item_eqb (hmacsha1_item creator id p) (hmacsha1_item creator id q))
      eqn:E; [|reflexivity].
    apply item_eqb_eq in E. injection E as E. congruence.
  - intros key2 creator2 id2 Hk2 H2h H2p Hdiff.
    rewrite (hmacsha1_verify_run _ _ _ _ _ _ _ _ Hh Hk2 Hp1
               (not_eq_sym H2h) Hhp H2p).
    destruct (item_eqb (hmacsha1_item creator id p)
                (hmacsha1_item creator2 id2 p)) eqn:E; [|reflexivity].
    apply item_eqb_eq in E. injection E as E1 E2. congruence.
Qed.


Lemma gone_stays (s : state) (p q : Z) :
  items s !! p = None -> items (set_items (delete q) s) !! p = None.
Proof.
  intros H. simpl. destruct (decide (q = p)) as [->|Hne].
  - apply lookup_delete_eq.
  - rewrite lookup_delete_ne; [exact H|exact Hne].
Qed.

(** A run that consumes another chunk first and then needs the chunk of a
    pointer that holds no item. *)
Lemma consume_then_missing {B} (s : state) (p q : Z) (k : item -> M B) :
  items s !! p = None ->
  (forall i s2, items s2 !! p = None ->
                exists s', k i s2 = Stop ContractViolation s') ->
  exists s', (consume_item q ≫= k) s = Stop ContractViolation s'.
Proof.
  intros Hp Hk. rewrite bind_run. unfold consume_item.
  destruct (items s !! q) as [i|]; [|eauto].
  apply Hk, gone_stays, Hp.
Qed.

Lemma consume_key_then_missing {B} (s : state) (p q : Z) (k : Z * Z -> M B) :
  items s !! p = None ->
  (forall ci s2, items s2 !! p = None ->
                 exists s', k ci s2 = Stop ContractViolation s') ->
  exists s', (consume_key q ≫= k) s = Stop ContractViolation s'.
Proof.
  intros Hp Hk. rewrite bind_run. unfold consume_key.
  rewrite bind_run. unfold consume_item.
  destruct (items s !! q) as [i|]; [|eauto].
  destruct i as [creator id| | |]; try (eexists; reflexivity).
  apply (Hk (creator, id)), gone_stays, Hp.
Qed.

Lemma missing_first {B} (s : state) (p : Z) (k : item -> M B) :
  items s !! p = None ->
  (consume_item p ≫= k) s = Stop ContractViolation s.
Proof. intros Hp. rewrite bind_run, (consume_item_missing _ _ Hp). reflexivity. Qed.

(** X18. A freed item is gone: [item_free] removes the chunk of the item and
    no other, and afterwards every wrapper function that takes an item, given
    the freed pointer in any of its argument places, violates its contract:
    a second [item_free], [item_get_data], [check_is_key], [pair_get_first],
    [pair_get_second], [net_send], [create_pair], [hmacsha1], [item_equals]
    and [hmacsha1_verify]. *)
Theorem item_free_consumes (s : state) (p : Z) (i : item) :
  items s !! p = Some i ->
  exists s1,
    item_free p s = Ret tt s1 /\
    items s1 = delete p (items s) /\
    item_free p s1 = Stop ContractViolation s1 /\
    item_get_data p s1 = Stop ContractViolation s1 /\
    check_is_key p s1 = Stop ContractViolation s1 /\
    pair_get_first p s1 = Stop ContractViolation s1 /\
    pair_get_second p s1 = Stop ContractViolation s1 /\
    net_send p s1 = Stop ContractViolation s1 /\
    (forall q, create_pair p q s1 = Stop ContractViolation s1) /\
    (forall q, hmacsha1 p q s1 = Stop ContractViolation s1) /\
    (forall q, item_equals p q s1 = Stop ContractViolation s1) /\
    (forall q r, hmacsha1_verify p q r s1 = Stop ContractViolation s1) /\
    (forall q, exists s', create_pair q p s1 = Stop ContractViolation s') /\
    (forall q, exists s', hmacsha1 q p s1 = Stop ContractViolation s') /\
    (forall q, exists s', item_equals q p s1 = Stop ContractViolation s') /\
    (forall q r, exists s', hmacsha1_verify q p r s1 = Stop ContractViolation s') /\
    (forall q r, exists s', hmacsha1_verify q r p s1 = Stop ContractViolation s').
Proof.
  intros Hp. rewrite (item_free_run _ _ _ Hp).
  set (s1 := set_items (delete p) s).
  assert (Hgone : items s1 !! p = None) by (simpl; apply lookup_delete_eq).
  pose proof (consume_item_missing s1 p Hgone) as Hc.
  exists s1. split; [reflexivity|]. split; [reflexivity|].
  split; [apply (missing_first _ _ _ Hgone)|].
  split; [apply (missing_first _ _ _ Hgone)|].
  split; [apply (missing_first _ _ _ Hgone)|].
  split; [apply (missing_first _ _ _ Hgone)|].
  split; [apply (missing_first _ _ _ Hgone)|].
  split; [apply (missing_first _ _ _ Hgone)|].
  split; [intros q; apply (missing_first _ _ _ Hgone)|].
  split; [intros q; unfold hmacsha1, consume_key;
          rewrite bind_run, (missing_first _ _ _ Hgone); reflexivity|].
  split; [intros q; apply (missing_first _ _ _ Hgone)|].
  split; [intros q r; apply (missing_first _ _ _ Hgone)|].
  split; [|split; [|split; [|split]]].
  - intros q. apply (consume_then_missing _ p q _ Hgone).
    intros f s2 H2. exists s2. apply (missing_first _ _ _ H2).
  - intros q. apply (consume_key_then_missing _ p q _ Hgone).
    intros [creator id] s2 H2. exists s2. apply (missing_first _ _ _ H2).
  - intros q. apply (consume_then_missing _ p q _ Hgone).
    intros f s2 H2. exists s2. apply (missing_first _ _ _ H2).
  - intros q r. apply (consume_then_missing _ p q _ Hgone).
    intros h s2 H2. exists s2. unfold consume_key.
    rewrite bind_run, (missing_first _ _ _ H2). reflexivity.
  - intros q r. apply (consume_then_missing _ p q _ Hgone).
    intros h s2 H2. apply (consume_key_then_missing _ p r _ H2).
    intros [creator id] s3 H3. exists s3. apply (missing_first _ _ _ H3).
Qed.

(** X19. [check_is_key] is what makes [hmacsha1] safe on an item of unknown
    form: on a key item the check returns and changes nothing, and
    [hmacsha1] then returns the hash under that key; on any other item the
    check aborts, where [hmacsha1] itself would have violated its
    contract. *)
Theorem check_is_key_guards_hmacsha1 (s : state) (k payload : Z) (i p : item) :
  items s !! k = Some i ->
  items s !! payload = Some p ->
  k <> payload ->
  (forall creator id,
     i = key_item creator id ->
     check_is_key k s = Ret tt s /\
     exists hash s',
       hmacsha1 k payload s = Ret hash s' /\
       items s' !! hash = Some (hmacsha1_item creator id p)) /\
  ((forall creator id, i <> key_item creator id) ->
   (exists s', check_is_key k s = Stop TagMismatch s') /\
   (exists s', hmacsha1 k payload s = Stop ContractViolation s')).
Proof.
  intros Hk Hp Hne. rewrite (check_is_key_run _ _ _ Hk). split.
  - intros creator id ->. split; [reflexivity|].
    rewrite (hmacsha1_run _ _ _ _ _ _ Hk Hp Hne). unfold alloc_item.
    eexists _, _. split; [reflexivity|apply live_new].
  - intros Hnokey. split.
    + destruct i; eauto. destruct (Hnokey _ _ eq_refl).
    + unfold hmacsha1, consume_key.
      rewrite !bind_run, (consume_item_run _ _ _ Hk).
      destruct i; eauto. destruct (Hnokey _ _ eq_refl).
Qed.

(** X20. Whatever pair decomposition extracts from a public item is public;
    so the key of a principal that is not bad, shared with a principal that
    is not bad, is never among the components of a public item. *)
Theorem public_items_expose_no_good_key (i : item) :
  mypub i = true ->
  (forall c, In c (components i) -> mypub c = true) /\
  (forall o k,
     In (key_item o k) (components i) ->
     bad o || bad (shared_with o k) = true).
Proof.
  intros Hpub.
  assert (Hall : forall c, In c (components i) -> mypub c = true).
  { induction i as [o k|d|hc hk m _|f IHf sv IHsv]; intros c Hin;
      try (destruct Hin as [<-|[]]; exact Hpub).
    destruct Hin as [<-|Hin]; [exact Hpub|].
    simpl in Hpub. apply andb_true_iff in Hpub as [Hf Hsv].
    apply in_app_or in Hin as [Hin|Hin]; [apply IHf|apply IHsv]; assumption. }
  split; [exact Hall|].
  intros o k Hin. apply (Hall _ Hin).
Qed.

(** X21. The two roles fit together: the message that [client] sends for a
    request is one that an iteration of [server] with the same key accepts,
    and the message that the server then sends is one that the client
    accepts, so that the client ends with an item that represents the
    answer of the server application. *)
Theorem protocol_round_trip (serverId ckey rq skey creator id : Z)
    (req resp : item) (more : list item) (cs ss : state) :
  world cs = mypub -> world ss = mypub ->
  items cs !! ckey = Some (key_item creator id) ->
  items cs !! rq = Some req -> ckey <> rq ->
  items ss !! skey = Some (key_item creator id) ->
  mypub req = true ->
  request creator (shared_with creator id) req = true ->
  answers ss = resp :: more ->
  mypub resp = true ->
  response creator (shared_with creator id) req resp = true ->
  exists ss' result cs',
    server_iteration serverId skey
      (set_wire [request_message creator id req] ss) = Ret tt ss' /\
    sent ss' = sent ss ++ [response_message creator id req resp] /\
    client serverId ckey rq
      (set_wire [response_message creator id req resp] cs) = Ret result cs' /\
    sent cs' = sent cs ++ [request_message creator id req] /\
    items cs' !! result = Some resp.
Proof.
  intros Hwc Hws Hck Hrq Hne Hsk Hreq Hev Hans Hresp Hrev.
  assert (Hm1 : mypub (request_message creator id req) = true).
  { simpl. rewrite Hev, Hreq, !orb_true_r. reflexivity. }
  assert (Hm2 : mypub (response_message creator id req resp) = true).
  { simpl. rewrite Hrev, Hreq, Hresp, !orb_true_r. reflexivity. }
  destruct (server_iteration_step serverId skey creator id
              (set_wire [request_message creator id req] ss) req resp [] more
              Hws Hsk eq_refl Hm1 Hans Hresp Hrev)
    as (ss' & Hsrv & _ & Hsent & _).
  destruct (client_run_accepts serverId ckey rq creator id req resp []
              (set_wire [response_message creator id req resp] cs))
    as (result & cs' & Hcl & _ & Hitems & Hcsent); try assumption.
  - simpl. rewrite Hwc. exact Hm1.
  - reflexivity.
  - simpl. rewrite Hwc. exact Hm2.
  - exists ss', result, cs'. split; [exact Hsrv|]. split; [exact Hsent|].
    split; [exact Hcl|]. split; [exact Hcsent|].
    rewrite Hitems. apply lookup_insert_eq.
Qed.


Lemma client_send_refused (server key rq creator id : Z) (req : item)
    (s : state) :
  items s !! key = Some (key_item creator id) ->
  items s !! rq = Some req -> key <> rq ->
  world s (request_message creator id req) = false ->
  wp (fun why s' => why = ContractViolation /\ sent s' = sent s)
     (client server key rq) (fun _ _ => False) s.
Proof.
  intros Hk Hr Hne Hrefused. unfold client.
  wp_alloc wp_create_data_item.
  wp_alloc wp_create_pair.
  wp_free.
  wp_alloc wp_hmacsha1.
  wp_alloc wp_create_pair.
  wp_free. wp_free.
  wp_next. eapply wp_net_send; [eassumption| |intros _; split; reflexivity].
  intros Hyes. change (world s (request_message creator id req) = true) in Hyes.
  rewrite Hrefused in Hyes. discriminate.
Qed.

(** X22. When the body of [client] breaks the precondition of a wrapper it
    calls: in world(mypub), with the key and the request owned, exactly
    when the request message may not be sent, that is when the request
    item is not public, or when no principal involved is bad and the event
    request(creator, shared_with(creator, id), req) does not hold.  The
    wrapper is the first [net_send], and nothing has been sent.  The
    [requires] clause of [client] rules this out.  (This is about the calls
    inside the body; a call outside the [requires] clause of [client] need
    not break any of them: a bad creator needs no request event.) *)
Theorem client_body_violation_exactly (server key rq creator id : Z) (req : item)
    (s : state) :
  world s = mypub ->
  items s !! key = Some (key_item creator id) ->
  items s !! rq = Some req -> key <> rq ->
  ((exists s', client server key rq s = Stop ContractViolation s') <->
   (bad creator || bad (shared_with creator id)
    || request creator (shared_with creator id) req) && mypub req = false) /\
  (forall s', client server key rq s = Stop ContractViolation s' ->
              sent s' = sent s) /\
  (client_requires server key rq creator id req s ->
   forall s', client server key rq s <> Stop ContractViolation s').
Proof.
  intros Hw Hk Hr Hne.
  assert (Hmsg : world s (request_message creator id req)
                 = (bad creator || bad (shared_with creator id)
                    || request creator (shared_with creator id) req)
                   && mypub req).
  { rewrite Hw. reflexivity. }
  destruct (world s (request_message creator id req)) eqn:Hsend.
  - pose proof (client_run server key rq creator id req s Hk Hr Hne Hsend) as Hrun.
    assert (Hnever : forall s', client server key rq s <> Stop ContractViolation s').
    { intros s' Hstop. destruct (wp_stops _ _ _ _ _ _ Hrun Hstop) as [_ []]. }
    split; [|split].
    + split; [intros [s' Hstop]; destruct (Hnever s' Hstop)|].
      intros Hno. rewrite Hno in Hmsg. discriminate.
    + intros s' Hstop. destruct (Hnever s' Hstop).
    + intros _. exact Hnever.
  - pose proof (client_send_refused server key rq creator id req s Hk Hr Hne Hsend)
      as Hrun.
    split; [|split].
    + split; [intros _; symmetry; exact Hmsg|]. intros _.
      destruct (wp_must_stop _ _ _ Hrun) as (why & s' & Hstop & -> & _).
      exists s'. exact Hstop.
    + intros s' Hstop. apply (wp_stops _ _ _ _ _ _ Hrun Hstop).
    + intros (_ & _ & _ & _ & Hreq & Hev & Hsw). exfalso.
      rewrite Hsw, Hev, Hreq, !orb_true_r in Hmsg. discriminate.
Qed.

End Integrity.


(** ** The scenario, run *)

Ltac evaluated :=
  first [ vm_compute; reflexivity | lia | discriminate ].

Lemma client_integrity_witness :
  exists resp,
    client_ensures Scenario.bad Scenario.request Scenario.response
      Scenario.shared_with 2 10 11 1 0 (data_item 42) 17 resp
      (final_state (client 2 10 11 Scenario.client_state)) /\
    (Scenario.bad 1 || Scenario.bad 2
     || Scenario.response 1 2 (data_item 42) resp = true).
Proof.
  apply (client_integrity Scenario.bad Scenario.request Scenario.response
           Scenario.shared_with 2 10 11 1 0 (data_item 42)
           Scenario.client_state); evaluated.
Defined.

Lemma mypub_hmac_sound_witness :
  exists tag s,
    pair_item (data_item 0) (data_item 42) = pair_item (data_item tag) s /\
    ((tag = 0 /\ Scenario.request 1 (Scenario.shared_with 1 0) s = true) \/
     (tag = 1 /\ exists req resp,
        s = pair_item req resp /\
        Scenario.response 1 (Scenario.shared_with 1 0) req resp = true)).
Proof.
  apply (mypub_hmac_sound Scenario.bad Scenario.request Scenario.response
           Scenario.shared_with 1 0 (pair_item (data_item 0) (data_item 42)));
    evaluated.
Defined.


Lemma server_iteration_behaviour_witness :
  exists s',
    server_iteration Scenario.bad Scenario.request Scenario.response
      Scenario.shared_with 2 10 Scenario.server_state = Ret tt s' /\
    sent s' = [response_message 1 0 (data_item 42) (data_item 7)].
Proof.
  destruct (server_iteration_behaviour Scenario.bad Scenario.request
              Scenario.response Scenario.shared_with 2 10 1 0
              Scenario.server_state)
    as (_ & _ & Hserves & _); [evaluated ..|].
  apply (Hserves (data_item 42) (data_item 7) [] []); evaluated.
Defined.

Lemma item_injective_and_equals_witness :
  exists b,
    item_equals 10 11 Scenario.client_state = Ret b Scenario.client_state /\
    (b = true <-> key_item 1 0 = data_item 42).
Proof.
  destruct (item_injective_and_equals Scenario.client_state 10 11
              (key_item 1 0) (data_item 42))
    as (_ & _ & Hequals); [evaluated ..|].
  exact Hequals.
Defined.

Lemma accessors_round_trip_witness :
  exists r s',
    pair_get_second 20 Scenario.pair_state = Ret r s' /\
    items s' !! r = Some (key_item 1 0) /\
    items s' !! 20 = Some (pair_item (data_item 1) (key_item 1 0)).
Proof.
  destruct (accessors_round_trip Scenario.pair_state 20
              (pair_item (data_item 1) (key_item 1 0)))
    as (Hpair & _); [evaluated|].
  apply (Hpair (data_item 1) (key_item 1 0) eq_refl).
Defined.




Lemma client_requires_pub_request_witness :
  exists s',
    client 2 10 11 Scenario.leaking_client_state = Stop ContractViolation s'.
Proof.
  destruct (client_requires_pub_request Scenario.bad Scenario.request
              Scenario.response Scenario.shared_with 2 10 11 1 0
              (key_item 1 0) Scenario.leaking_client_state)
    as (_ & Hviolates); [evaluated ..|].
  apply Hviolates. evaluated.
Defined.

Lemma client_response_pub_witness :
  exists resp rest,
    items (final_state (client 2 10 11 Scenario.client_state)) !! 17
    = Some resp /\
    wire Scenario.client_state = response_message 1 0 (data_item 42) resp :: rest /\
    Scenario.pub (response_message 1 0 (data_item 42) resp) = true /\
    (forall a b, Scenario.pub (pair_item a b) = Scenario.pub a && Scenario.pub b) /\
    Scenario.pub resp = true.
Proof.
  apply (client_response_pub Scenario.bad Scenario.request Scenario.response
           Scenario.shared_with 2 10 11 1 0 (data_item 42)
           Scenario.client_state).
  - unfold client_requires. repeat split; evaluated.
  - vm_compute. reflexivity.
Defined.

Lemma client_returns_frame_witness :
  exists resp rest,
    wire Scenario.client_state = response_message 1 0 (data_item 42) resp :: rest /\
    items Scenario.client_state !! 17 = None /\
    items (final_state (client 2 10 11 Scenario.client_state))
    = <[17:=resp]> (items Scenario.client_state) /\
    sent (final_state (client 2 10 11 Scenario.client_state))
    = sent Scenario.client_state ++ [request_message 1 0 (data_item 42)].
Proof.
  destruct (client_returns_frame 2 10 11 1 0 (data_item 42) Scenario.client_state)
    as (_ & Hframe); [evaluated ..|].
  destruct (Hframe 17 (final_state (client 2 10 11 Scenario.client_state)))
    as (resp & rest & H1 & H2 & H3 & H4 & _); [evaluated|].
  exists resp, rest. split; [exact H1|]. split; [exact H2|].
  split; [exact H3|exact H4].
Defined.

Lemma client_accepts_response_witness :
  exists result s',
    client 2 10 11 Scenario.client_state = Ret result s' /\
    items s' !! result = Some (data_item 7) /\
    items s' !! 10 = Some (key_item 1 0) /\
    items s' !! 11 = Some (data_item 42).
Proof.
  apply (client_accepts_response 2 10 11 1 0 (data_item 42) (data_item 7) []
           Scenario.client_state); evaluated.
Defined.

Lemma client_rejects_other_messages_witness :
  exists why s',
    client 2 10 11 Scenario.reflected_client_state = Stop why s' /\
    (why = TagMismatch \/ why = HashMismatch \/ why = AbortCall) /\
    sent s' = [request_message 1 0 (data_item 42)].
Proof.
  apply (client_rejects_other_messages 2 10 11 1 0 (data_item 42)
           (request_message 1 0 (data_item 42)) []
           Scenario.reflected_client_state); evaluated.
Defined.

Lemma server_answers_genuine_requests_witness :
  exists req resp rest more,
    wire Scenario.server_state = request_message 1 0 req :: rest /\
    answers Scenario.server_state = resp :: more /\
    (Scenario.bad 1 || Scenario.bad (Scenario.shared_with 1 0)
     || Scenario.request 1 (Scenario.shared_with 1 0) req = true) /\
    sent (final_state
            (server_iteration Scenario.bad Scenario.request Scenario.response
               Scenario.shared_with 2 10 Scenario.server_state))
    = sent Scenario.server_state ++ [response_message 1 0 req resp].
Proof.
  apply (server_answers_genuine_requests Scenario.bad Scenario.request
           Scenario.response Scenario.shared_with 2 10 1 0
           Scenario.server_state); evaluated.
Defined.

Lemma server_iteration_frame_witness :
  items (final_state
           (server_iteration Scenario.bad Scenario.request Scenario.response
              Scenario.shared_with 2 10 Scenario.server_state))
  = items Scenario.server_state.
Proof.
  destruct (server_iteration_frame Scenario.bad Scenario.request
              Scenario.response Scenario.shared_with 2 10 1 0
              Scenario.server_state
              (final_state
                 (server_iteration Scenario.bad Scenario.request
                    Scenario.response Scenario.shared_with 2 10
                    Scenario.server_state)))
    as (Hitems & _); [evaluated ..|].
  exact Hitems.
Defined.

Lemma server_rejects_other_messages_witness :
  exists why s',
    server_iteration Scenario.bad Scenario.request Scenario.response
      Scenario.shared_with 2 10 Scenario.confused_server_state = Stop why s' /\
    (why = TagMismatch \/ why = HashMismatch \/ why = AbortCall) /\
    sent s' = [].
Proof.
  apply (server_rejects_other_messages Scenario.bad Scenario.request
           Scenario.response Scenario.shared_with 2 10 1 0
           (response_message 1 0 (data_item 42) (data_item 7)) []
           Scenario.confused_server_state); evaluated.
Defined.

Lemma server_serves_in_order_witness :
  exists s',
    server Scenario.bad Scenario.request Scenario.response Scenario.shared_with
      1 2 10 Scenario.server_state = Stop Exhausted s' /\
    sent s' = [response_message 1 0 (data_item 42) (data_item 7)] /\
    items s' = items Scenario.server_state /\ wire s' = [] /\ answers s' = [].
Proof.
  apply (server_serves_in_order Scenario.bad Scenario.request Scenario.response
           Scenario.shared_with 2 10 1 0 [data_item 42] [data_item 7]);
    [repeat constructor; evaluated | evaluated ..].
Defined.

Lemma server_never_returns_witness :
  exists why s',
    server Scenario.bad Scenario.request Scenario.response Scenario.shared_with
      3 2 10 Scenario.server_state = Stop why s' /\
    why <> ContractViolation.
Proof.
  apply (server_never_returns Scenario.bad Scenario.request Scenario.response
           Scenario.shared_with 3 2 10 1 0 Scenario.server_state); evaluated.
Defined.

Lemma attacker_publishes_data_witness :
  exists s',
    attacker_action Scenario.bad Scenario.shared_with
      (Scenario.attacker_with [1; 5] []) = Ret tt s' /\
    sent s' = [data_item 5] /\
    items s' = ∅ /\ choices s' = [] /\ wire s' = [].
Proof.
  apply (attacker_publishes_data Scenario.bad Scenario.request Scenario.response
           Scenario.shared_with (Scenario.attacker_with [1; 5] []) 5 []);
    evaluated.
Defined.

Lemma attacker_pairs_messages_witness :
  exists s',
    attacker_action Scenario.bad Scenario.shared_with
      (Scenario.attacker_with [2] [data_item 1; data_item 2]) = Ret tt s' /\
    sent s' = [pair_item (data_item 1) (data_item 2)] /\
    items s' = ∅ /\ wire s' = [].
Proof.
  apply (attacker_pairs_messages Scenario.bad Scenario.request Scenario.response
           Scenario.shared_with
           (Scenario.attacker_with [2] [data_item 1; data_item 2])
           (data_item 1) (data_item 2) [] []); evaluated.
Defined.

Lemma attacker_hashes_with_public_key_witness :
  exists s',
    attacker_action Scenario.bad Scenario.shared_with
      (Scenario.attacker_with [3] [key_item 9 0; data_item 5]) = Ret tt s' /\
    sent s' = [hmacsha1_item 9 0 (data_item 5)] /\
    items s' = ∅ /\ wire s' = [].
Proof.
  destruct (attacker_hashes_with_public_key Scenario.bad Scenario.request
              Scenario.response Scenario.shared_with
              (Scenario.attacker_with [3] [key_item 9 0; data_item 5])
              (key_item 9 0) (data_item 5) [] [])
    as (Hkey & _); [evaluated ..|].
  apply (Hkey 9 0 eq_refl).
Defined.

Lemma attacker_decomposes_pairs_witness :
  exists s',
    attacker_action Scenario.bad Scenario.shared_with
      (Scenario.attacker_with [4] [pair_item (data_item 1) (data_item 2)])
    = Ret tt s' /\
    sent s' = [data_item 1; data_item 2] /\
    items s' = ∅ /\ wire s' = [].
Proof.
  destruct (attacker_decomposes_pairs Scenario.bad Scenario.request
              Scenario.response Scenario.shared_with
              (Scenario.attacker_with [4] [pair_item (data_item 1) (data_item 2)])
              (pair_item (data_item 1) (data_item 2)) [] [])
    as (Hpair & _); [evaluated ..|].
  apply (Hpair (data_item 1) (data_item 2) eq_refl).
Defined.

Lemma attacker_unknown_action_witness :
  attacker_action Scenario.bad Scenario.shared_with (Scenario.attacker_with [7] [])
  = Ret tt (set_choices [] (Scenario.attacker_with [7] [])).
Proof.
  apply (attacker_unknown_action Scenario.bad Scenario.shared_with
           (Scenario.attacker_with [7] []) 7 []); [evaluated|lia].
Defined.

Lemma attacker_actions_respect_contracts_witness :
  world (final_state
           (attacker_action Scenario.bad Scenario.shared_with
              Scenario.attacker_state)) = Scenario.pub /\
  exists keyCount',
    principal_chunks
      (final_state
         (attacker_action Scenario.bad Scenario.shared_with
            Scenario.attacker_state)) = [(9, keyCount')].
Proof.
  destruct (attacker_actions_respect_contracts Scenario.bad Scenario.request
              Scenario.response Scenario.shared_with Scenario.attacker_state
              9 0 [])
    as (_ & Hinv); [evaluated | evaluated | intros tape _; reflexivity |].
  apply Hinv. evaluated.
Defined.


Lemma hmacsha1_verify_round_trip_witness :
  exists hash s1,
    hmacsha1 10 11 Scenario.client_state = Ret hash s1 /\
    items s1 !! hash = Some (hmacsha1_item 1 0 (data_item 42)) /\
    hmacsha1_verify hash 10 11 s1 = Ret tt s1.
Proof.
  destruct (hmacsha1_verify_round_trip Scenario.client_state 10 11 1 0
              (data_item 42))
    as (hash & s1 & H1 & H2 & H3 & _); [evaluated ..|].
  exists hash, s1. split; [exact H1|]. split; [exact H2|exact H3].
Defined.


Lemma item_free_consumes_witness :
  exists s1,
    item_free 11 Scenario.client_state = Ret tt s1 /\
    items s1 = delete 11 (items Scenario.client_state) /\
    item_free 11 s1 = Stop ContractViolation s1.
Proof.
  destruct (item_free_consumes Scenario.client_state 11 (data_item 42))
    as (s1 & H1 & H2 & H3 & _); [evaluated|].
  exists s1. split; [exact H1|]. split; [exact H2|exact H3].
Defined.

Lemma check_is_key_guards_hmacsha1_witness :
  check_is_key 10 Scenario.client_state = Ret tt Scenario.client_state /\
  exists hash s',
    hmacsha1 10 11 Scenario.client_state = Ret hash s' /\
    items s' !! hash = Some (hmacsha1_item 1 0 (data_item 42)).
Proof.
  destruct (check_is_key_guards_hmacsha1 Scenario.client_state 10 11
              (key_item 1 0) (data_item 42))
    as (Hkey & _); [evaluated ..|].
  apply (Hkey 1 0 eq_refl).
Defined.

Lemma public_items_expose_no_good_key_witness :
  Scenario.bad 9 || Scenario.bad (Scenario.shared_with 9 0) = true.
Proof.
  destruct (public_items_expose_no_good_key Scenario.bad Scenario.request
              Scenario.response Scenario.shared_with
              (pair_item (data_item 1) (key_item 9 0)))
    as (_ & Hkeys); [evaluated|].
  apply (Hkeys 9 0). simpl. auto.
Defined.

Lemma protocol_round_trip_witness :
  exists ss' result cs',
    server_iteration Scenario.bad Scenario.request Scenario.response
      Scenario.shared_with 2 10
      (set_wire [request_message 1 0 (data_item 42)] Scenario.server_state)
    = Ret tt ss' /\
    sent ss'
    = sent Scenario.server_state
      ++ [response_message 1 0 (data_item 42) (data_item 7)] /\
    client 2 10 11
      (set_wire [response_message 1 0 (data_item 42) (data_item 7)]
         Scenario.client_state)
    = Ret result cs' /\
    sent cs' = sent Scenario.client_state ++ [request_message 1 0 (data_item 42)] /\
    items cs' !! result = Some (data_item 7).
Proof.
  apply (protocol_round_trip Scenario.bad Scenario.request Scenario.response
           Scenario.shared_with 2 10 11 10 1 0 (data_item 42) (data_item 7) []
           Scenario.client_state Scenario.server_state); evaluated.
Defined.

Lemma client_body_violation_exactly_witness :
  exists s',
    client 2 10 11 Scenario.leaking_client_state = Stop ContractViolation s'.
Proof.
  destruct (client_body_violation_exactly Scenario.bad Scenario.request
              Scenario.response Scenario.shared_with 2 10 11 1 0 (key_item 1 0)
              Scenario.leaking_client_state)
    as ((_ & Hviolates) & _); [evaluated ..|].
  apply Hviolates. evaluated.
Defined.
